(** * Canopy Count: a shallow embedding of the tree-survey application

    The development follows the TypeScript sources file by file:
    [types.ts] and [constants.ts] (data model), [App.tsx] (the orchestrator,
    module [App]), [components/AnnotationModal.tsx] (module
    [AnnotationModal]), the two copies of [components/StreetView.tsx]
    (modules [StreetView] and [StreetViewEarly]) and the tabular codec of
    [utils/storage] (module [Csv]).

    React state is explicit: a component is a record holding its [useState]
    cells and its refs, an event handler is a function on that record, and
    what a handler obtains from the platform (a random UUID, today's date,
    the outcome of a network request) is an argument of the handler. *)

From Stdlib Require Import String Ascii List ZArith QArith Lia.
From Stdlib Require Import DecimalString DecimalPos DecimalZ.
From stdpp Require Import base option list sets gmap strings.

Local Open Scope string_scope.
Local Open Scope list_scope.
Local Open Scope nat_scope.

(** ** types.ts *)

Inductive TreeHealth := GOOD | FAIR | CRITICAL | DEAD.

Inductive TreeSpecies :=
  OAK | MAPLE | PINE | PALM | CHERRY | BIRCH | OTHER | UNKNOWN.

(** The string value of each enum member. *)
Definition TreeHealth_value (h : TreeHealth) : string :=
  match h with
  | GOOD => "Good"
  | FAIR => "Fair"
  | CRITICAL => "Critical"
  | DEAD => "Dead"
  end.

Definition TreeSpecies_value (s : TreeSpecies) : string :=
  match s with
  | OAK => "Oak"
  | MAPLE => "Maple"
  | PINE => "Pine"
  | PALM => "Palm"
  | CHERRY => "Cherry"
  | BIRCH => "Birch"
  | OTHER => "Other"
  | UNKNOWN => "Unknown"
  end.

(** A JavaScript [number] that holds a coordinate is modelled as a rational:
    coordinates are only stored, copied and compared, never computed with. *)
Definition number := Q.

(** [interface MapLocation { lat; lng }] *)
Module Loc.
Record MapLocation := mk { lat : number; lng : number }.
End Loc.
Abbreviation MapLocation := Loc.MapLocation.

(** [interface TreeRecord]; [notes?: string] is the optional field. *)
Module Tree.
Record TreeRecord := mk {
  id : string;
  lat : number;
  lng : number;
  species : TreeSpecies;
  condition : TreeHealth;
  dateAdded : string;
  notes : option string
}.
End Tree.
Abbreviation TreeRecord := Tree.TreeRecord.

(** ** constants.ts *)

Definition DEFAULT_CENTER : MapLocation :=
  {| Loc.lat := 28.6328%Q; Loc.lng := 77.2197%Q |}.

(** [Object.values(TreeSpecies)] and [Object.values(TreeHealth)]. *)
Definition SPECIES_OPTIONS : list TreeSpecies :=
  [OAK; MAPLE; PINE; PALM; CHERRY; BIRCH; OTHER; UNKNOWN].

Definition HEALTH_OPTIONS : list TreeHealth := [GOOD; FAIR; CRITICAL; DEAD].

(** Decimal rendering of a length inside a template string. *)
Definition nat_to_string (n : nat) : string :=
  NilZero.string_of_uint (Nat.to_uint n).

(** ** App.tsx: the orchestrator *)

Module App.

(** [type ViewMode = 'map' | 'street'] *)
Inductive ViewMode := mode_map | mode_street.

(** The [useState] cells of [App].  [treesVersion] is a ghost counter that
    stands for the identity of the array held in [trees]: every [setTrees]
    installs a freshly built array, and the auto-save effect is keyed on
    that identity. *)
Record State := mkState {
  trees : list TreeRecord;
  treesVersion : nat;
  isModalOpen : bool;
  tempLocation : option MapLocation;
  userLocation : option MapLocation;
  notification : option string;
  viewMode : ViewMode;
  streetViewPos : MapLocation
}.

(** The initial values passed to [useState]. *)
Definition initial : State :=
  {| trees := []; treesVersion := 0; isModalOpen := false;
     tempLocation := None; userLocation := None; notification := None;
     viewMode := mode_map; streetViewPos := DEFAULT_CENTER |}.

(** State setters. *)
Definition setTrees (f : list TreeRecord → list TreeRecord) (st : State) : State :=
  {| trees := f (trees st); treesVersion := S (treesVersion st);
     isModalOpen := isModalOpen st; tempLocation := tempLocation st;
     userLocation := userLocation st; notification := notification st;
     viewMode := viewMode st; streetViewPos := streetViewPos st |}.

Definition setIsModalOpen (b : bool) (st : State) : State :=
  {| trees := trees st; treesVersion := treesVersion st;
     isModalOpen := b; tempLocation := tempLocation st;
     userLocation := userLocation st; notification := notification st;
     viewMode := viewMode st; streetViewPos := streetViewPos st |}.

Definition setTempLocation (l : option MapLocation) (st : State) : State :=
  {| trees := trees st; treesVersion := treesVersion st;
     isModalOpen := isModalOpen st; tempLocation := l;
     userLocation := userLocation st; notification := notification st;
     viewMode := viewMode st; streetViewPos := streetViewPos st |}.

Definition setUserLocation (l : option MapLocation) (st : State) : State :=
  {| trees := trees st; treesVersion := treesVersion st;
     isModalOpen := isModalOpen st; tempLocation := tempLocation st;
     userLocation := l; notification := notification st;
     viewMode := viewMode st; streetViewPos := streetViewPos st |}.

Definition setNotification (m : option string) (st : State) : State :=
  {| trees := trees st; treesVersion := treesVersion st;
     isModalOpen := isModalOpen st; tempLocation := tempLocation st;
     userLocation := userLocation st; notification := m;
     viewMode := viewMode st; streetViewPos := streetViewPos st |}.

Definition setViewMode (m : ViewMode) (st : State) : State :=
  {| trees := trees st; treesVersion := treesVersion st;
     isModalOpen := isModalOpen st; tempLocation := tempLocation st;
     userLocation := userLocation st; notification := notification st;
     viewMode := m; streetViewPos := streetViewPos st |}.

Definition setStreetViewPos (l : MapLocation) (st : State) : State :=
  {| trees := trees st; treesVersion := treesVersion st;
     isModalOpen := isModalOpen st; tempLocation := tempLocation st;
     userLocation := userLocation st; notification := notification st;
     viewMode := viewMode st; streetViewPos := l |}.

(** [handleMapClick] *)
Definition handleMapClick (loc : MapLocation) (st : State) : State :=
  match viewMode st with
  | mode_street => setStreetViewPos loc st
  | mode_map => setIsModalOpen true (setTempLocation (Some loc) st)
  end.

(** [handleStreetViewAnnotate] *)
Definition handleStreetViewAnnotate (loc : MapLocation) (st : State) : State :=
  setIsModalOpen true (setTempLocation (Some loc) st).

(** [handleCloseModal] *)
Definition handleCloseModal (st : State) : State :=
  setTempLocation None (setIsModalOpen false st).

(** [showNotification]: the message is set now; the timer that clears it
    three seconds later is the separate event [notificationExpired]. *)
Definition showNotification (msg : string) (st : State) : State :=
  setNotification (Some msg) st.

Definition notificationExpired (st : State) : State :=
  setNotification None st.

(** The payload the annotation form hands to [onSave]. *)
Record SaveData := mkSaveData {
  data_species : TreeSpecies;
  data_condition : TreeHealth;
  data_notes : string
}.

(** What [handleSaveTree] reads from the platform: the result of
    [crypto.randomUUID()] and of [new Date().toLocaleDateString()]. *)
Record Platform := mkPlatform {
  randomUUID : string;
  toLocaleDateString : string
}.

(** [handleSaveTree] *)
Definition handleSaveTree (env : Platform) (data : SaveData) (st : State) : State :=
  match tempLocation st with
  | None => st
  | Some loc =>
      let newTree : TreeRecord :=
        {| Tree.id := randomUUID env;
           Tree.lat := Loc.lat loc;
           Tree.lng := Loc.lng loc;
           Tree.species := data_species data;
           Tree.condition := data_condition data;
           Tree.dateAdded := toLocaleDateString env;
           Tree.notes := Some (data_notes data) |} in
      showNotification "Tree labelled successfully!"
        (handleCloseModal
           (setTrees (λ prev, prev ++ [newTree]) st))
  end.

(** [handleImport]; [existingIds] is the [Set] of the stored ids. *)
Definition handleImport (importedTrees : list TreeRecord) (st : State) : State :=
  if length importedTrees =? 0 then
    showNotification "No valid records found in CSV." st
  else
    showNotification
      ("Imported " +:+ nat_to_string (length importedTrees) +:+ " trees.")
      (setTrees
         (λ prev,
            let existingIds : gset string := list_to_set (map Tree.id prev) in
            let uniqueNew := filter (λ t, Tree.id t ∉ existingIds) importedTrees in
            prev ++ uniqueNew)
         st).

(** [toggleViewMode]; [userLocation || DEFAULT_CENTER]. *)
Definition toggleViewMode (st : State) : State :=
  match viewMode st with
  | mode_map => setStreetViewPos (default DEFAULT_CENTER (userLocation st))
             (setViewMode mode_street st)
  | mode_street => setViewMode mode_map st
  end.

(** Durable storage: the value under [STORAGE_KEY], absent at first. *)
Definition Storage := option (list TreeRecord).

(** Modelled from the spec: [saveTreesToStorage] of [utils/storage], which
    is not among the sources.  It serializes the full current list and
    overwrites any prior snapshot; the snapshot is kept here as the list
    it encodes. *)
Definition saveTreesToStorage (ts : list TreeRecord) (disk : Storage) : Storage :=
  Some ts.

(** The browser: the component state and the storage. *)
Record World := mkWorld { ui : State; disk : Storage }.

(** The events the orchestrator reacts to; [StorageLoaded] is the mount
    effect, [setTrees(loadTreesFromStorage())]. *)
Inductive Event :=
| StorageLoaded (loaded : list TreeRecord)
| MapClicked (loc : MapLocation)
| StreetViewAnnotated (loc : MapLocation)
| StreetViewMoved (loc : MapLocation)
| ModalClosed
| ModalSaved (env : Platform) (data : SaveData)
| Imported (importedTrees : list TreeRecord)
| ViewToggled
| Geolocated (loc : MapLocation)
| NotificationExpired.

Definition handle (ev : Event) (st : State) : State :=
  match ev with
  | StorageLoaded loaded => setTrees (λ _, loaded) st
  | MapClicked loc => handleMapClick loc st
  | StreetViewAnnotated loc => handleStreetViewAnnotate loc st
  | StreetViewMoved loc => setStreetViewPos loc st
  | ModalClosed => handleCloseModal st
  | ModalSaved env data => handleSaveTree env data st
  | Imported ts => handleImport ts st
  | ViewToggled => toggleViewMode st
  | Geolocated loc => setUserLocation (Some loc) st
  | NotificationExpired => notificationExpired st
  end.

(** The auto-save effect, [useEffect(() => saveTreesToStorage(trees), [trees])]:
    after a render it runs when the array in [trees] is a new one. *)
Definition autoSave (before after : State) (d : Storage) : Storage :=
  if treesVersion before =? treesVersion after then d
  else saveTreesToStorage (trees after) d.

(** One event followed by the render and its effects. *)
Definition step (ev : Event) (w : World) : World :=
  let st' := handle ev (ui w) in
  {| ui := st'; disk := autoSave (ui w) st' (disk w) |}.

(** The states the application can be in. *)
Inductive reachable : State → Prop :=
| reachable_initial : reachable initial
| reachable_handle ev st : reachable st → reachable (handle ev st).

(** The set of identifiers of a list of records, and the identifiers of
    an imported list that the store does not hold yet. *)
Definition ids (ts : list TreeRecord) : gset string :=
  list_to_set (map Tree.id ts).

Definition genuinelyNew (store imported : list TreeRecord) : gset string :=
  ids imported ∖ ids store.

End App.

(** ** components/AnnotationModal.tsx *)

Module AnnotationModal.

(** The data props; the callback props [onClose] and [onSave] are the
    constructors of [Call], and a handler returns the calls it makes. *)
Record Props := mkProps {
  isOpen : bool;
  location : option MapLocation
}.

Inductive Call :=
| onClose
| onSave (data : App.SaveData).

(** The three [useState] cells. *)
Record State := mkState {
  species : TreeSpecies;
  condition : TreeHealth;
  notes : string
}.

Definition initial : State :=
  {| species := UNKNOWN; condition := GOOD; notes := "" |}.

Definition setSpecies (s : TreeSpecies) (st : State) : State :=
  {| species := s; condition := condition st; notes := notes st |}.

Definition setCondition (c : TreeHealth) (st : State) : State :=
  {| species := species st; condition := c; notes := notes st |}.

Definition setNotes (n : string) (st : State) : State :=
  {| species := species st; condition := condition st; notes := n |}.

(** What the form shows when it is rendered. *)
Record View := mkView {
  shown_location : MapLocation;
  species_buttons : list TreeSpecies;
  condition_buttons : list TreeHealth;
  selected_species : TreeSpecies;
  selected_condition : TreeHealth;
  notes_text : string
}.

(** [if (!isOpen || !location) return null;] *)
Definition render (p : Props) (st : State) : option View :=
  match isOpen p, location p with
  | true, Some loc =>
      Some {| shown_location := loc;
              species_buttons := SPECIES_OPTIONS;
              condition_buttons := HEALTH_OPTIONS;
              selected_species := species st;
              selected_condition := condition st;
              notes_text := notes st |}
  | _, _ => None
  end.

(** [handleSubmit] *)
Definition handleSubmit (st : State) : State * list Call :=
  let payload :=
    {| App.data_species := species st;
       App.data_condition := condition st;
       App.data_notes := notes st |} in
  (setNotes "" (setCondition GOOD (setSpecies UNKNOWN st)), [onSave payload]).

(** What the user can do with the rendered form. *)
Inductive Action :=
| ClickSpecies (opt : TreeSpecies)
| ClickCondition (opt : TreeHealth)
| EditNotes (text : string)
| Submit
| ClickClose.

(** The handlers are attached to elements of the rendered form: without
    a rendered form no action reaches them. *)
Definition act (p : Props) (a : Action) (st : State) : State * list Call :=
  match render p st with
  | None => (st, [])
  | Some _ =>
      match a with
      | ClickSpecies opt => (setSpecies opt st, [])
      | ClickCondition opt => (setCondition opt st, [])
      | EditNotes text => (setNotes text st, [])
      | Submit => handleSubmit st
      | ClickClose => (st, [onClose])
      end
  end.

(** The props [App] passes: [isOpen={isModalOpen} location={tempLocation}
    onClose={handleCloseModal} onSave={handleSaveTree}]. *)
Definition propsFrom (app : App.State) : Props :=
  {| isOpen := App.isModalOpen app; location := App.tempLocation app |}.

Definition deliver (env : App.Platform) (c : Call) (app : App.State) : App.State :=
  match c with
  | onClose => App.handleCloseModal app
  | onSave data => App.handleSaveTree env data app
  end.

End AnnotationModal.

(** ** components/StreetView.tsx: what both copies share *)

Module SV.

(** [type Status] *)
Inductive Status :=
  idle | searching | loading_viewer | ready | error | no_coverage.

#[global] Instance Status_eq_dec : EqDecision Status.
Proof. solve_decision. Defined.

(** The third-party viewer object, as far as the component is concerned:
    the image it displays. *)
Record Viewer := mkViewer { imageId : string }.

(** The [useState] cells and [viewerRef.current], followed by four logs
    of what the component did: the [setStatus] calls in order, the number
    of [console.warn] calls, the viewers on which [remove()] was called
    and the [onPositionChange] calls. *)
Record State := mkState {
  status : Status;
  errorMsg : option string;
  isLabeling : bool;
  currentImageLoc : option MapLocation;
  viewerRef : option Viewer;
  statusLog : list Status;
  warnings : nat;
  removed : list Viewer;
  positionChanges : list MapLocation
}.

Definition initial : State :=
  {| status := searching; errorMsg := None; isLabeling := false;
     currentImageLoc := None; viewerRef := None;
     statusLog := []; warnings := 0; removed := []; positionChanges := [] |}.

Definition setStatus (s : Status) (st : State) : State :=
  {| status := s; errorMsg := errorMsg st; isLabeling := isLabeling st;
     currentImageLoc := currentImageLoc st; viewerRef := viewerRef st;
     statusLog := statusLog st ++ [s]; warnings := warnings st;
     removed := removed st; positionChanges := positionChanges st |}.

Definition setErrorMsg (m : option string) (st : State) : State :=
  {| status := status st; errorMsg := m; isLabeling := isLabeling st;
     currentImageLoc := currentImageLoc st; viewerRef := viewerRef st;
     statusLog := statusLog st; warnings := warnings st;
     removed := removed st; positionChanges := positionChanges st |}.

Definition setIsLabeling (b : bool) (st : State) : State :=
  {| status := status st; errorMsg := errorMsg st; isLabeling := b;
     currentImageLoc := currentImageLoc st; viewerRef := viewerRef st;
     statusLog := statusLog st; warnings := warnings st;
     removed := removed st; positionChanges := positionChanges st |}.

Definition setCurrentImageLoc (l : option MapLocation) (st : State) : State :=
  {| status := status st; errorMsg := errorMsg st; isLabeling := isLabeling st;
     currentImageLoc := l; viewerRef := viewerRef st;
     statusLog := statusLog st; warnings := warnings st;
     removed := removed st; positionChanges := positionChanges st |}.

(** [viewerRef.current = v] *)
Definition setViewerRef (v : option Viewer) (st : State) : State :=
  {| status := status st; errorMsg := errorMsg st; isLabeling := isLabeling st;
     currentImageLoc := currentImageLoc st; viewerRef := v;
     statusLog := statusLog st; warnings := warnings st;
     removed := removed st; positionChanges := positionChanges st |}.

(** [console.warn(...)] *)
Definition warn (st : State) : State :=
  {| status := status st; errorMsg := errorMsg st; isLabeling := isLabeling st;
     currentImageLoc := currentImageLoc st; viewerRef := viewerRef st;
     statusLog := statusLog st; warnings := S (warnings st);
     removed := removed st; positionChanges := positionChanges st |}.

(** [viewerRef.current.remove(); viewerRef.current = null;] *)
Definition removeViewer (v : Viewer) (st : State) : State :=
  {| status := status st; errorMsg := errorMsg st; isLabeling := isLabeling st;
     currentImageLoc := currentImageLoc st; viewerRef := None;
     statusLog := statusLog st; warnings := warnings st;
     removed := removed st ++ [v]; positionChanges := positionChanges st |}.

(** [onPositionChange(loc)] *)
Definition onPositionChange (loc : MapLocation) (st : State) : State :=
  {| status := status st; errorMsg := errorMsg st; isLabeling := isLabeling st;
     currentImageLoc := currentImageLoc st; viewerRef := viewerRef st;
     statusLog := statusLog st; warnings := warnings st;
     removed := removed st; positionChanges := positionChanges st ++ [loc] |}.

(** The outcome of [fetch] and of [res.json()]. *)
Inductive Json :=
| json_rejected (message : string)
| json_body (found : bool) (id : string).

Inductive Fetched :=
| fetch_rejected (message : string)
| fetch_response (ok : bool) (code : nat) (body : Json).

(** What the viewer reports after it has been constructed: an ['image']
    event with its node ([None] when [node && node.image] is falsy) or a
    ['load'] event. *)
Inductive ViewerEvent :=
| image_event (node : option MapLocation)
| load_event.

(** Everything one run of the effect receives from outside.
    [library_present k] tells whether [window.mapillary] is defined after
    [k] sleeps of the polling loop.  [cleanup_at] is the stage at which the
    effect's cleanup runs and sets [isMounted] to false, if it ever does;
    the stages are the points where the run resumes: 1 after the polling
    loop, 2 after the lookup, 3 after [moveToKey] (or, in the early copy,
    when the construction timer fires), 4 and up for the viewer events. *)
Record Run := mkRun {
  library_present : nat → bool;
  fetched : Fetched;
  cleanup_at : option nat;
  move_resolves : bool;
  container : bool;
  viewer_constructs : bool;
  viewer_events : list ViewerEvent
}.

(** The closure variable [isMounted] as read at a stage. *)
Definition isMounted (r : Run) (stage : nat) : bool :=
  match cleanup_at r with
  | None => true
  | Some c => stage <? c
  end.

(** JavaScript truthiness of a string. *)
Definition truthy (s : string) : bool :=
  match s with
  | EmptyString => false
  | String _ _ => true
  end.

(** [viewer.moveToKey(imageId)], when it resolves. *)
Definition moveToKey (imageId' : string) (v : Viewer) : Viewer :=
  {| imageId := imageId' |}.

(** The handlers registered with [viewer.on('image', ...)] and
    [viewer.on('load', ...)]; [viewer.resize()] has no effect on the
    component. *)
Definition onViewerEvent (mounted : bool) (ev : ViewerEvent) (st : State) : State :=
  match ev with
  | image_event node =>
      if mounted then
        match node with
        | Some loc =>
            setStatus ready (onPositionChange loc (setCurrentImageLoc (Some loc) st))
        | None => st
        end
      else st
  | load_event => if mounted then setStatus ready st else st
  end.

Fixpoint deliverEvents (r : Run) (stage : nat) (evs : list ViewerEvent)
    (st : State) : State :=
  match evs with
  | [] => st
  | ev :: rest =>
      deliverEvents r (S stage) rest (onViewerEvent (isMounted r stage) ev st)
  end.

(** The effect's cleanup. *)
Definition cleanup (st : State) : State :=
  match viewerRef st with
  | Some v => removeViewer v st
  | None => st
  end.

(** [toggleLabelMode]; its button is rendered only while [ready]. *)
Definition toggleLabelMode (st : State) : State :=
  setIsLabeling (negb (isLabeling st)) st.

(** [handleOverlayClick]: returns the [onAnnotate] call, if any. *)
Definition handleOverlayClick (st : State) : State * option MapLocation :=
  match isLabeling st, currentImageLoc st with
  | true, Some loc => (setIsLabeling false st, Some loc)
  | _, _ => (st, None)
  end.

(** The statuses set since the log had length [n]. *)
Definition statusesSince (n : nat) (st : State) : list Status :=
  drop n (statusLog st).

(** The statuses in which a run comes to rest. *)
Definition terminal (s : Status) : bool :=
  match s with
  | ready | no_coverage | error => true
  | idle | searching | loading_viewer => false
  end.

(** The image identifier the lookup service returned, if it answered with
    one: a successful response whose body is [found] with a non-empty id. *)
Definition found_image (f : Fetched) : option string :=
  match f with
  | fetch_response true _ (json_body true id) =>
      if truthy id then Some id else None
  | _ => None
  end.

(** The lookup itself failed, that is, [findNearestImage] ended in its
    [catch]: [fetch] rejected, the response was not [ok], or [res.json()]
    rejected.  A response that was read and reports nothing found is not a
    failure. *)
Definition lookup_failed (f : Fetched) : bool :=
  match f with
  | fetch_rejected _ => true
  | fetch_response false _ _ => true
  | fetch_response true _ (json_rejected _) => true
  | fetch_response true _ (json_body _ _) => false
  end.

(** A viewer event on which a mounted component sets [ready]. *)
Definition reports (ev : ViewerEvent) : bool :=
  match ev with
  | image_event (Some _) | load_event => true
  | image_event None => false
  end.

(** The run is never cleaned up, the container is mounted, and a viewer
    that is constructed reports at least once. *)
Definition undisturbed (r : Run) : Prop :=
  cleanup_at r = None
  ∧ container r = true
  ∧ (viewer_constructs r = true → ∃ ev, ev ∈ viewer_events r ∧ reports ev = true).

End SV.

(** ** components/StreetView.tsx *)

Module StreetView.
Import SV.

(** The [catch] branch of [findNearestImage]. *)
Definition lookupFailed (message : string) (st : State) : option string * State :=
  (None,
   setErrorMsg
     (Some (if truthy message then message else "Failed to connect to Backend"))
     (setStatus error st)).

(** [findNearestImage]: the image id, or [None] for [null]. *)
Definition findNearestImage (f : Fetched) (st : State) : option string * State :=
  let st := setStatus searching st in
  match f with
  | fetch_rejected message => lookupFailed message st
  | fetch_response false code _ =>
      lookupFailed
        ("Backend connection failed (" +:+ nat_to_string code +:+ "). Is main.py running?")
        st
  | fetch_response true _ (json_rejected message) => lookupFailed message st
  | fetch_response true _ (json_body found id) =>
      if found && truthy id then (Some id, st)
      else (None, setStatus no_coverage st)
  end.

(** Step A, the polling loop
    [while (!window.mapillary && attempts < 50) { sleep; attempts++ }];
    [budget] is [50 - attempts]; the result is the final [attempts]. *)
Fixpoint waitForLibrary (present : nat → bool) (attempts budget : nat) : nat :=
  match budget with
  | 0 => attempts
  | S budget' =>
      if present attempts then attempts
      else waitForLibrary present (S attempts) budget'
  end.

(** [window.mapillary] as tested after the loop. *)
Definition libraryLoaded (r : Run) : bool :=
  library_present r (waitForLibrary (library_present r) 0 50).

(** The second half of step C,
    [if (!viewerRef.current && mlyContainerRef.current) { ... }];
    [stage] is the stage the run is in when it gets here. *)
Definition createViewer (r : Run) (stage : nat) (imageId : string) (st : State) : State :=
  match viewerRef st with
  | Some _ => st
  | None =>
      if container r then
        let st := setStatus loading_viewer st in
        if viewer_constructs r then
          deliverEvents r 4 (viewer_events r)
            (setViewerRef (Some {| SV.imageId := imageId |}) st)
        else if isMounted r stage then
          setErrorMsg (Some "Could not start Mapillary Viewer") (setStatus error st)
        else st
      else st
  end.

(** [loadScene], one run of the effect.  When the cleanup ran while
    [moveToKey] was pending, [viewerRef.current] is [null] by the time the
    run resumes; in the [catch] branch [viewerRef.current.remove()] then
    throws and the run ends there. *)
Definition loadScene (r : Run) (st : State) : State :=
  if negb (libraryLoaded r) then
    if isMounted r 1 then
      setErrorMsg
        (Some "Mapillary JS library failed to load. Check internet connection.")
        (setStatus error st)
    else st
  else
    let '(imageId, st) := findNearestImage (fetched r) st in
    if negb (isMounted r 2) then st
    else
      match imageId with
      | None => st
      | Some imageId =>
          match viewerRef st with
          | Some v =>
              if move_resolves r then
                let st := if isMounted r 3
                          then setViewerRef (Some (moveToKey imageId v)) st
                          else setViewerRef None st in
                createViewer r 3 imageId (setStatus ready st)
              else
                let st := warn st in
                if isMounted r 3 then createViewer r 3 imageId (removeViewer v st)
                else setViewerRef None st
          | None => createViewer r 2 imageId st
          end
      end.

(** A change of [position.lat] or [position.lng] re-runs the effect: the
    cleanup of the previous run, then [loadScene]. *)
Definition positionChanged (r : Run) (st : State) : State :=
  loadScene r (cleanup st).

(** The statuses one run sets, in order. *)
Definition statusTrace (r : Run) (st : State) : list Status :=
  statusesSince (length (statusLog st)) (loadScene r st).

(** The [Dismiss] button of the error overlay. *)
Definition dismiss (st : State) : State := setStatus searching st.

End StreetView.

(** ** The early copy of StreetView.tsx (source part_003) *)

Module StreetViewEarly.
Import SV.

(** [findNearestImage]: every failure reports the same message. *)
Definition findNearestImage (f : Fetched) (st : State) : option string * State :=
  let st := setStatus searching st in
  let failed :=
    (None,
     setErrorMsg (Some "Failed to connect to Backend (Is python main.py running?)")
       (setStatus error st)) in
  match f with
  | fetch_rejected _ => failed
  | fetch_response false _ _ => failed
  | fetch_response true _ (json_rejected _) => failed
  | fetch_response true _ (json_body found id) =>
      if found && truthy id then (Some id, st)
      else (None, setStatus no_coverage st)
  end.

(** [loadScene]: there is no polling loop, [window.mapillary] is tested
    once, and the viewer is constructed from a 100 ms timer.  When the
    cleanup ran while [moveToKey] was pending it has removed the viewer, and
    [viewerRef.current] is [null] by the time the run resumes; the run
    then sets [ready], or warns, all the same and returns. *)
Definition loadScene (r : Run) (st : State) : State :=
  let '(imageId, st) := findNearestImage (fetched r) st in
  if negb (isMounted r 2) then st
  else
    match imageId with
    | None => st
    | Some imageId =>
        match viewerRef st with
        | Some v =>
            if move_resolves r then
              let st := if isMounted r 3
                        then setViewerRef (Some (moveToKey imageId v)) st
                        else setViewerRef None st in
              setStatus ready st
            else
              let st := warn st in
              if isMounted r 3 then st else setViewerRef None st
        | None =>
            if container r && library_present r 0 then
              let st := setStatus loading_viewer st in
              if negb (isMounted r 3) then st
              else if viewer_constructs r then
                deliverEvents r 4 (viewer_events r)
                  (setViewerRef (Some {| SV.imageId := imageId |}) st)
              else
                setErrorMsg (Some "Could not start Mapillary Viewer")
                  (setStatus error st)
            else st
        end
    end.

Definition positionChanged (r : Run) (st : State) : State :=
  loadScene r (cleanup st).

Definition statusTrace (r : Run) (st : State) : list Status :=
  statusesSince (length (statusLog st)) (loadScene r st).

End StreetViewEarly.

(** ** utils/storage: the tabular codec

    Modelled from the spec: [utils/storage], which [MissionControl] imports
    [generateCSV] and [parseCSV] from, is not among the sources.  Every
    definition of this module follows the description of the codec in the
    spec (section 4.2): a header row and one row per point, fields quoted
    and escaped where they hold a delimiter or a quote, rows that fail to
    parse skipped, sentinels for unknown species and condition strings, a
    trailing blank line and carriage returns tolerated.  The delimiter is
    the comma and the header names the fields of [TreeRecord] in order. *)

Module Csv.

(** How a coordinate is written into a field and read back: JavaScript's
    number-to-string conversion and its number parser, which belong to the
    platform.  [parse_num] answers [None] for a text that is not a number. *)
Class NumberText := {
  show_num : number → string;
  parse_num : string → option number
}.

(** The values an unknown species or condition string falls back to. *)
Class Sentinels := {
  species_sentinel : TreeSpecies;
  condition_sentinel : TreeHealth
}.

Definition comma : ascii := ","%char.
Definition dquote : ascii := "034"%char.
Definition LF : ascii := "010"%char.
Definition CR : ascii := "013"%char.

(** The characters that force a field to be quoted. *)
Definition special (c : ascii) : bool :=
  Ascii.eqb c comma || Ascii.eqb c dquote || Ascii.eqb c LF || Ascii.eqb c CR.

Fixpoint any (p : ascii → bool) (s : string) : bool :=
  match s with
  | EmptyString => false
  | String c rest => p c || any p rest
  end.

(** Every quote character is doubled. *)
Fixpoint escape (s : string) : string :=
  match s with
  | EmptyString => EmptyString
  | String c rest =>
      if Ascii.eqb c dquote then String dquote (String dquote (escape rest))
      else String c (escape rest)
  end.

Definition encode_field (s : string) : string :=
  if any special s then String dquote (escape s +:+ String dquote EmptyString)
  else s.

Definition encode_row (fields : list string) : string :=
  String.concat (String comma EmptyString) (map encode_field fields).

Definition header : list string :=
  ["id"; "lat"; "lng"; "species"; "condition"; "dateAdded"; "notes"].

Section Codec.
Context `{NumberText} `{Sentinels}.

Definition fields_of (t : TreeRecord) : list string :=
  [ Tree.id t;
    show_num (Tree.lat t);
    show_num (Tree.lng t);
    TreeSpecies_value (Tree.species t);
    TreeHealth_value (Tree.condition t);
    Tree.dateAdded t;
    default EmptyString (Tree.notes t) ].

(** Modelled from the spec: [generateCSV] of [utils/storage], which is
    not among the sources ([encode] in the spec).  It produces a
    delimited text document, a header row plus one row per point, with
    fields quoted and escaped so that embedded delimiters or quote
    characters round-trip. *)
Definition generateCSV (points : list TreeRecord) : string :=
  String.concat (String LF EmptyString)
    (encode_row header :: map (λ t, encode_row (fields_of t)) points).

(** The reader: one pass over the text that tracks whether it is inside
    a quoted field, the field and the row read so far.  Outside quotes a
    comma ends the field, a line feed ends the row and a carriage return
    is dropped; inside quotes a doubled quote is a quote character. *)
Fixpoint scan (quoted : bool) (field : string) (row : list string)
    (text : string) : list (list string) :=
  match text with
  | EmptyString => [row ++ [field]]
  | String c rest =>
      if quoted then
        if Ascii.eqb c dquote then
          match rest with
          | String c' rest' =>
              if Ascii.eqb c' dquote
              then scan true (field +:+ String dquote EmptyString) row rest'
              else scan false field row rest
          | EmptyString => scan false field row rest
          end
        else scan true (field +:+ String c EmptyString) row rest
      else if Ascii.eqb c dquote then scan true field row rest
      else if Ascii.eqb c comma then scan false EmptyString (row ++ [field]) rest
      else if Ascii.eqb c LF then (row ++ [field]) :: scan false EmptyString [] rest
      else if Ascii.eqb c CR then scan false field row rest
      else scan false (field +:+ String c EmptyString) row rest
  end.

Definition rows (text : string) : list (list string) :=
  scan false EmptyString [] text.

(** The rows after the header row. *)
Definition data_rows (text : string) : list (list string) :=
  tail (rows text).

Definition species_of_string (s : string) : TreeSpecies :=
  default species_sentinel
    (find (λ x, String.eqb (TreeSpecies_value x) s) SPECIES_OPTIONS).

Definition condition_of_string (s : string) : TreeHealth :=
  default condition_sentinel
    (find (λ x, String.eqb (TreeHealth_value x) s) HEALTH_OPTIONS).

(** One row: seven fields, both coordinates numbers. *)
Definition parse_row (fields : list string) : option TreeRecord :=
  match fields with
  | [i; la; ln; sp; co; d; n] =>
      match parse_num la, parse_num ln with
      | Some a, Some b =>
          Some {| Tree.id := i; Tree.lat := a; Tree.lng := b;
                  Tree.species := species_of_string sp;
                  Tree.condition := condition_of_string co;
                  Tree.dateAdded := d; Tree.notes := Some n |}
      | _, _ => None
      end
  | _ => None
  end.

(** A blank line reads as a row with one empty field. *)
Definition is_blank (fields : list string) : bool :=
  match fields with
  | [EmptyString] => true
  | _ => false
  end.

(** The decoding loop: a row that does not parse is skipped. *)
Fixpoint collect (rs : list (list string)) (acc : list TreeRecord)
    : list TreeRecord :=
  match rs with
  | [] => acc
  | r :: rest =>
      if is_blank r then collect rest acc
      else
        match parse_row r with
        | Some t => collect rest (acc ++ [t])
        | None => collect rest acc
        end
  end.

(** Modelled from the spec: [parseCSV] of [utils/storage], which is not
    among the sources ([decode] in the spec).  It produces the sequence
    of points, skipping rows that fail to parse (malformed field count,
    unparseable coordinates) rather than aborting; unknown species and
    condition strings fall back to a sentinel value; a trailing blank
    line and carriage returns before line feeds are tolerated. *)
Definition parseCSV (text : string) : list TreeRecord :=
  collect (data_rows text) [].

(** A row is malformed when it has the wrong number of fields or a
    coordinate field that is not a number. *)
Definition malformed (fields : list string) : Prop :=
  length fields ≠ 7
  ∨ (∃ la, fields !! 1 = Some la ∧ parse_num la = None)
  ∨ (∃ ln, fields !! 2 = Some ln ∧ parse_num ln = None).


End Codec.





End Csv.

(** ** A number format for running the codec on concrete texts

    Fixed point with four decimals, enough for the coordinates of
    [constants.ts]; it stands in for the platform's conversions where a
    statement is evaluated on an example. *)

Module Fixed4.

Definition N_to_string (n : N) : string :=
  NilZero.string_of_uint (N.to_uint n).

(** The text before the first dot and, if there is a dot, the text after. *)
Fixpoint split_dot (s : string) : string * option string :=
  match s with
  | EmptyString => (EmptyString, None)
  | String c rest =>
      if Ascii.eqb c "."%char then (EmptyString, Some rest)
      else let '(a, b) := split_dot rest in (String c a, b)
  end.

Definition pad4 (s : string) : string :=
  match 4 - String.length s with
  | 0 => s
  | 1 => "0" +:+ s
  | 2 => "00" +:+ s
  | 3 => "000" +:+ s
  | _ => "0000"
  end.

Definition show (q : number) : string :=
  let scaled := Z.quot (Qnum q * 10000) (Zpos (Qden q)) in
  let a := Z.abs_N scaled in
  (if (scaled <? 0)%Z then "-" else "")
    +:+ N_to_string (a / 10000) +:+ "." +:+ pad4 (N_to_string (a mod 10000)).

Definition digits (s : string) : option N :=
  match s with
  | EmptyString => None
  | _ => option_map N.of_uint (NilEmpty.uint_of_string s)
  end.

Definition parse_unsigned (s : string) : option N :=
  match split_dot s with
  | (whole, None) => option_map (λ a, a * 10000)%N (digits whole)
  | (whole, Some frac) =>
      if String.length frac =? 4 then
        match digits whole, digits frac with
        | Some a, Some b => Some (a * 10000 + b)%N
        | _, _ => None
        end
      else None
  end.

Definition parse (s : string) : option number :=
  match s with
  | String "-" rest =>
      option_map (λ n, Qmake (- Z.of_N n) 10000) (parse_unsigned rest)
  | _ => option_map (λ n, Qmake (Z.of_N n) 10000) (parse_unsigned s)
  end.

#[export] Instance number_text : Csv.NumberText :=
  {| Csv.show_num := show; Csv.parse_num := parse |}.

#[export] Instance sentinels : Csv.Sentinels :=
  {| Csv.species_sentinel := UNKNOWN; Csv.condition_sentinel := GOOD |}.

End Fixed4.

(** ** A number format that loses nothing

    Every number is written as its numerator, a slash and its denominator,
    in decimal digits, and read back from them. *)

Module Ratio.

Definition slash (c : ascii) : bool := Ascii.eqb c "/"%char.

(** The text before the first slash and, if there is a slash, the text
    after it. *)
Fixpoint split_slash (s : string) : string * option string :=
  match s with
  | EmptyString => (EmptyString, None)
  | String c rest =>
      if slash c then (EmptyString, Some rest)
      else let '(a, b) := split_slash rest in (String c a, b)
  end.

Definition show (q : number) : string :=
  NilEmpty.string_of_int (Z.to_int (Qnum q))
    +:+ String "/" (NilEmpty.string_of_uint (Pos.to_uint (Qden q))).

Definition parse (s : string) : option number :=
  match split_slash s with
  | (a, Some b) =>
      match NilEmpty.int_of_string a, NilEmpty.uint_of_string b with
      | Some n, Some d =>
          match Pos.of_uint d with
          | Npos p => Some (Qmake (Z.of_int n) p)
          | N0 => None
          end
      | _, _ => None
      end
  | (_, None) => None
  end.

Definition number_text : Csv.NumberText :=
  {| Csv.show_num := show; Csv.parse_num := parse |}.

End Ratio.

(** ** constants.ts: the colour of each condition *)

(** [HEALTH_COLORS] *)
Definition HEALTH_COLORS (h : TreeHealth) : string :=
  match h with
  | GOOD => "#22c55e"
  | FAIR => "#eab308"
  | CRITICAL => "#f97316"
  | DEAD => "#ef4444"
  end.

Definition DEFAULT_ZOOM : nat := 16.

(** ** App.tsx: mounting, and sequences of events *)

Module AppRun.
Import App.

(** The first render and its effects, in the order they are declared: the
    load effect reads the storage ([loaded] is what [loadTreesFromStorage]
    returned) and calls [setTrees(loaded)]; the auto-save effect of that
    first render writes the initial, empty list; the render that follows
    shows [loaded] and its auto-save effect writes it. *)
Definition mount (loaded : list TreeRecord) (d : Storage) : World :=
  step (StorageLoaded loaded)
    {| ui := initial; disk := saveTreesToStorage [] d |}.

(** The worlds the mounted application goes through. *)
Inductive running : World → Prop :=
| running_mount loaded d : running (mount loaded d)
| running_step ev w : running w → running (step ev w).

(** A sequence of events, handled one after the other. *)
Definition handleAll (evs : list Event) (st : State) : State :=
  foldl (λ st ev, handle ev st) st evs.

(** The mount effect is the only event that replaces the list. *)
Definition replacesList (ev : Event) : bool :=
  match ev with
  | StorageLoaded _ => true
  | _ => false
  end.

End AppRun.

(** ** components/MissionControl.tsx *)

Module MissionControl.

Section Storage.

(** The two functions imported from [utils/storage]. *)
Variable generateCSV : list TreeRecord → string.
Variable parseCSV : string → list TreeRecord.

(** What [downloadFile] is called with. *)
Record Download := mkDownload {
  content : string;
  filename : string;
  mimeType : string
}.

(** [s.split('T')[0]]: the text before the first ['T']. *)
Fixpoint beforeT (s : string) : string :=
  match s with
  | EmptyString => EmptyString
  | String c rest =>
      if Ascii.eqb c "T"%char then EmptyString else String c (beforeT rest)
  end.

(** [handleDownload]; [iso] is [new Date().toISOString()]. *)
Definition handleDownload (iso : string) (trees : list TreeRecord) : Download :=
  let csv := generateCSV trees in
  let date := beforeT iso in
  {| content := csv;
     filename := "canopy-count-" +:+ date +:+ ".csv";
     mimeType := "text/csv" |}.

(** [handleFileUpload]: [file] is the text of [event.target.files?.[0]] as
    the reader delivers it, [None] when no file was chosen; the result is the
    argument of the [onImport] call, if one is made. *)
Definition handleFileUpload (file : option string) : option (list TreeRecord) :=
  match file with
  | None => None
  | Some text => if SV.truthy text then Some (parseCSV text) else None
  end.

(** [App] passes [onImport={handleImport}]. *)
Definition upload (file : option string) (app : App.State) : App.State :=
  match handleFileUpload file with
  | Some importedTrees => App.handleImport importedTrees app
  | None => app
  end.

(** The counter the panel shows, [{trees.length}]. *)
Definition annotated (trees : list TreeRecord) : nat := length trees.

End Storage.

End MissionControl.

(** ** components/TreeMap.tsx *)

Module TreeMap.

Record Props := mkProps {
  trees : list TreeRecord;
  userLocation : option MapLocation;
  streetViewLocation : option MapLocation
}.

(** One [CircleMarker] with its tooltip; the notes line is rendered only
    for truthy notes. *)
Record TreeMarker := mkTreeMarker {
  key : string;
  center : number * number;
  fillColor : string;
  title : string;
  badge : string;
  badgeColor : string;
  date : string;
  notesLine : option string
}.

Definition treeMarker (tree : TreeRecord) : TreeMarker :=
  {| key := Tree.id tree;
     center := (Tree.lat tree, Tree.lng tree);
     fillColor := HEALTH_COLORS (Tree.condition tree);
     title := TreeSpecies_value (Tree.species tree);
     badge := TreeHealth_value (Tree.condition tree);
     badgeColor := HEALTH_COLORS (Tree.condition tree);
     date := Tree.dateAdded tree;
     notesLine :=
       match Tree.notes tree with
       | Some n => if SV.truthy n then Some n else None
       | None => None
       end |}.

(** What the mounted component renders: the initial centre and zoom of the
    map, the target [MapController] flies to, the tree markers, the device
    marker and the street-view marker. *)
Record MapView := mkMapView {
  initialCenter : MapLocation;
  zoom : nat;
  flyTo : option MapLocation;
  treeMarkers : list TreeMarker;
  userMarker : option MapLocation;
  pegman : option MapLocation
}.

(** The component; before its mount effect has run it renders a
    placeholder, [None] here. *)
Definition render (isMounted : bool) (p : Props) : option MapView :=
  if isMounted then
    Some {| initialCenter := default DEFAULT_CENTER (streetViewLocation p);
            zoom := DEFAULT_ZOOM;
            flyTo := streetViewLocation p;
            treeMarkers := map treeMarker (trees p);
            userMarker := userLocation p;
            pegman := streetViewLocation p |}
  else None.

(** The props [App] passes:
    [streetViewLocation={viewMode === 'street' ? streetViewPos : null}]. *)
Definition propsFrom (app : App.State) : Props :=
  {| trees := App.trees app;
     userLocation := App.userLocation app;
     streetViewLocation :=
       match App.viewMode app with
       | App.mode_street => Some (App.streetViewPos app)
       | App.mode_map => None
       end |}.

End TreeMap.

(** ** components/AnnotationModal.tsx: sequences of actions *)

Module AnnotationRun.
Import AnnotationModal.

(** The actions that edit the selection. *)
Definition editing (a : Action) : bool :=
  match a with
  | ClickSpecies _ | ClickCondition _ | EditNotes _ => true
  | Submit | ClickClose => false
  end.

(** Actions performed one after the other under the same props; the calls
    are collected in order. *)
Fixpoint actAll (p : Props) (actions : list Action) (st : State)
    : State * list Call :=
  match actions with
  | [] => (st, [])
  | a :: rest =>
      let '(st1, calls1) := act p a st in
      let '(st2, calls2) := actAll p rest st1 in
      (st2, calls1 ++ calls2)
  end.

(** The selection a sequence of edits ends with. *)
Definition chosenSpecies (actions : list Action) (before : TreeSpecies) : TreeSpecies :=
  foldl (λ acc a, match a with ClickSpecies opt => opt | _ => acc end)
    before actions.

Definition chosenCondition (actions : list Action) (before : TreeHealth) : TreeHealth :=
  foldl (λ acc a, match a with ClickCondition opt => opt | _ => acc end)
    before actions.

Definition typedNotes (actions : list Action) (before : string) : string :=
  foldl (λ acc a, match a with EditNotes text => text | _ => acc end)
    before actions.

End AnnotationRun.

(** ** components/StreetView.tsx: what is rendered, in both copies *)

Module StreetViewUI.
Import SV.

(** The annotation overlay: [isLabeling && status === 'ready']. *)
Definition overlayShown (st : State) : bool :=
  isLabeling st && bool_decide (status st = ready).

(** The label button: [status === 'ready']. *)
Definition labelButtonShown (st : State) : bool :=
  bool_decide (status st = ready).

(** A click reaches a handler only through an element that is rendered. *)
Definition clickOverlay (st : State) : State * option MapLocation :=
  if overlayShown st then handleOverlayClick st else (st, None).

Definition clickLabelButton (st : State) : State :=
  if labelButtonShown st then toggleLabelMode st else st.

(** The message of the error overlay, [errorMsg || ...]. *)
Definition shownError (st : State) : option string :=
  if bool_decide (status st = error) then
    Some (match errorMsg st with
          | Some m => if truthy m then m else "Something went wrong"
          | None => "Something went wrong"
          end)
  else None.

(** The locations the viewer events of a run report while the run is
    mounted, in order. *)
Fixpoint reported (r : Run) (stage : nat) (evs : list ViewerEvent)
    : list MapLocation :=
  match evs with
  | [] => []
  | image_event (Some loc) :: rest =>
      if isMounted r stage then loc :: reported r (S stage) rest
      else reported r (S stage) rest
  | _ :: rest => reported r (S stage) rest
  end.

(** The state after the run is in [error] with a message, or the run did
    not set [error]. *)
Definition explained (st st' : State) : Prop :=
  (status st' = error ∧ ∃ m, errorMsg st' = Some m ∧ truthy m = true)
  ∨ ∃ tr, statusLog st' = statusLog st ++ tr ∧ error ∉ tr.

End StreetViewUI.

(** ** The identifiers [crypto.randomUUID()] returns *)

Module Uuid.

Definition hex (c : ascii) : bool :=
  let n := nat_of_ascii c in
  ((48 <=? n) && (n <=? 57)) || ((97 <=? n) && (n <=? 102)).

(** The variant digit of a version-4 UUID: 8, 9, a or b. *)
Definition variant (c : ascii) : bool :=
  let n := nat_of_ascii c in
  (n =? 56) || (n =? 57) || (n =? 97) || (n =? 98).

(** [s] has the shape of [pattern], where [x] stands for a hexadecimal
    digit, [y] for the variant digit and every other character for itself. *)
Fixpoint shaped (pattern s : string) : bool :=
  match pattern, s with
  | EmptyString, EmptyString => true
  | String p pattern, String c s =>
      (if Ascii.eqb p "x" then hex c
       else if Ascii.eqb p "y" then variant c
       else Ascii.eqb p c)
      && shaped pattern s
  | _, _ => false
  end.

(** A version-4 UUID in its canonical text form. *)
Definition is_v4 (s : string) : bool :=
  shaped "xxxxxxxx-xxxx-4xxx-yxxx-xxxxxxxxxxxx" s.

End Uuid.

(** ** components/StreetView.tsx: a run and the runs before it *)

Module StreetViewRuns.
Import SV.

(** The run gets as far as constructing a viewer: the lookup returned an
    image and no existing viewer moved to it. *)
Definition constructsViewer (r : Run) (st : State) : bool :=
  match found_image (fetched r), viewerRef st with
  | Some _, Some _ => negb (move_resolves r)
  | Some _, None => true
  | None, _ => false
  end.

(** What a superseded run still does when its request settles: the rest of
    [findNearestImage] after [await fetch(url)], which sets [no-coverage] or
    [error] without reading [isMounted]; [loadScene] then stops at
    [if (!isMounted) return]. *)
Definition lateReply (f : Fetched) (st : State) : State :=
  match f with
  | fetch_rejected message => (StreetView.lookupFailed message st).2
  | fetch_response false code _ =>
      (StreetView.lookupFailed
         ("Backend connection failed (" +:+ nat_to_string code +:+ "). Is main.py running?")
         st).2
  | fetch_response true _ (json_rejected message) =>
      (StreetView.lookupFailed message st).2
  | fetch_response true _ (json_body found id) =>
      if found && truthy id then st else setStatus no_coverage st
  end.

(** The replies to several superseded requests, in the order they arrive. *)
Definition lateReplies (fs : list Fetched) (st : State) : State :=
  foldl (λ st f, lateReply f st) st fs.

End StreetViewRuns.

(** ** Sample data *)

Module Sample.

Definition oak : TreeRecord :=
  {| Tree.id := "t-1"; Tree.lat := 28.6328%Q; Tree.lng := 77.2197%Q;
     Tree.species := OAK; Tree.condition := GOOD;
     Tree.dateAdded := "11/1/2026"; Tree.notes := Some "near the gate" |}.

Definition maple : TreeRecord :=
  {| Tree.id := "t-2"; Tree.lat := 28.6330%Q; Tree.lng := 77.2200%Q;
     Tree.species := MAPLE; Tree.condition := FAIR;
     Tree.dateAdded := "11/1/2026"; Tree.notes := Some "" |}.

Definition here : MapLocation :=
  {| Loc.lat := 28.6100%Q; Loc.lng := 77.2300%Q |}.

(** The store holds [oak] and a click on the map has opened the form. *)
Definition pending : App.State :=
  App.handle (App.MapClicked here)
    (App.handle (App.StorageLoaded [oak]) App.initial).

(** The split layout, entered from the initial state. *)
Definition split : App.State := App.handle App.ViewToggled App.initial.

Definition form_data : App.SaveData :=
  {| App.data_species := PINE; App.data_condition := CRITICAL;
     App.data_notes := "leaning" |}.

(** A platform whose UUID is new to the store, and one whose UUID is the
    identifier of [oak]. *)
Definition platform : App.Platform :=
  {| App.randomUUID := "t-7"; App.toLocaleDateString := "11/1/2026" |}.

Definition platform_repeating : App.Platform :=
  {| App.randomUUID := "t-1"; App.toLocaleDateString := "11/1/2026" |}.

(** A record whose identifier is a version-4 UUID, the store that holds it
    with a click on the map pending, a platform whose generator returns a
    UUID the store lacks, and one whose generator returns the UUID of
    [elm]. *)
Definition elm : TreeRecord :=
  {| Tree.id := "3f2b8c1e-5d4a-4e7b-9c0d-1a2b3c4d5e6f";
     Tree.lat := 28.6140%Q; Tree.lng := 77.2090%Q;
     Tree.species := OTHER; Tree.condition := GOOD;
     Tree.dateAdded := "10/30/2026"; Tree.notes := Some "elm by the canal" |}.

Definition pending_elm : App.State :=
  App.handle (App.MapClicked here)
    (App.handle (App.StorageLoaded [elm]) App.initial).

Definition platform_v4 : App.Platform :=
  {| App.randomUUID := "9b1deb4d-3b7d-4bad-9bdd-2b0d7b3dcb6d";
     App.toLocaleDateString := "11/1/2026" |}.

Definition platform_colliding : App.Platform :=
  {| App.randomUUID := "3f2b8c1e-5d4a-4e7b-9c0d-1a2b3c4d5e6f";
     App.toLocaleDateString := "11/1/2026" |}.

(** Runs of the street-level view's effect.  [run_ok]: the library is
    there, the lookup finds an image, the viewer is built and reports its
    load.  [run_no_library]: the same, but [window.mapillary] never
    appears.  [run_rebuild_fails]: the lookup finds an image, moving the
    existing viewer fails and so does building a new one. *)
Definition run_ok : SV.Run :=
  {| SV.library_present := λ _, true;
     SV.fetched := SV.fetch_response true 200 (SV.json_body true "img-2");
     SV.cleanup_at := None;
     SV.move_resolves := true;
     SV.container := true;
     SV.viewer_constructs := true;
     SV.viewer_events := [SV.load_event] |}.

Definition run_no_library : SV.Run :=
  {| SV.library_present := λ _, false;
     SV.fetched := SV.fetch_response true 200 (SV.json_body true "img-2");
     SV.cleanup_at := None;
     SV.move_resolves := true;
     SV.container := true;
     SV.viewer_constructs := true;
     SV.viewer_events := [SV.load_event] |}.



(** The reply of the lookup service when no image is near. *)
Definition nothing_near : SV.Fetched :=
  SV.fetch_response true 200 (SV.json_body false EmptyString).

(** The view while it shows an image in a constructed viewer. *)
Definition viewing : SV.State :=
  {| SV.status := SV.ready; SV.errorMsg := None; SV.isLabeling := false;
     SV.currentImageLoc := Some here;
     SV.viewerRef := Some {| SV.imageId := "img-1" |};
     SV.statusLog := [SV.searching; SV.loading_viewer; SV.ready];
     SV.warnings := 0; SV.removed := []; SV.positionChanges := [here] |}.

(** The view after a first run during which the library never appeared. *)
Definition library_missing : SV.State :=
  StreetView.loadScene run_no_library SV.initial.

(** The lines of a file with a well-formed row, a row that is too short, a
    row whose latitude is not a number, a row with an unknown species and
    condition, and a trailing blank line; the file with line feeds and the
    same file with carriage returns before them. *)
Definition survey_lines : list string :=
  [ "id,lat,lng,species,condition,dateAdded,notes";
    "t-1,28.6328,77.2197,Oak,Good,11/1/2026,near the gate";
    "t-2,28.6330";
    "t-3,north,77.2200,Pine,Fair,11/1/2026,";
    "t-4,28.6331,77.2201,Baobab,Thriving,11/2/2026,tall";
    "" ].

Definition survey_text : string :=
  String.concat (String Csv.LF EmptyString) survey_lines.

Definition survey_text_crlf : string :=
  String.concat (String Csv.CR (String Csv.LF EmptyString)) survey_lines.

(** A record whose notes hold a comma, a quote and a line feed. *)
Definition birch : TreeRecord :=
  {| Tree.id := "t-5"; Tree.lat := 28.6332%Q; Tree.lng := 77.2202%Q;
     Tree.species := BIRCH; Tree.condition := DEAD;
     Tree.dateAdded := "11/2/2026";
     Tree.notes :=
       Some ("signed " +:+ String Csv.dquote ("B" +:+ String Csv.dquote
               (", felled" +:+ String Csv.LF "see photo"))) |}.


Definition baobab : TreeRecord :=
  {| Tree.id := "t-4"; Tree.lat := 28.6331%Q; Tree.lng := 77.2201%Q;
     Tree.species := UNKNOWN; Tree.condition := GOOD;
     Tree.dateAdded := "11/2/2026"; Tree.notes := Some "tall" |}.

End Sample.

(** * Properties *)

(** ** The orchestrator *)

Section AppFacts.
Import App.

(** The form is open exactly while a coordinate is pending. *)
Lemma modal_open_iff_pending st :
  reachable st → isModalOpen st = bool_decide (is_Some (tempLocation st)).
Proof.
  induction 1 as [|ev st Hst IH]; [reflexivity|].
  destruct ev; simpl; try exact IH; try reflexivity.
  - unfold handleMapClick. destruct (viewMode st); [reflexivity | exact IH].
  - unfold handleSaveTree. destruct (tempLocation st) eqn:E; [reflexivity|].
    rewrite IH, E. reflexivity.
  - unfold handleImport. destruct (length importedTrees =? 0); exact IH.
  - unfold toggleViewMode. destruct (viewMode st); exact IH.
Qed.

(** What [handleImport] does to the list, with or without the early
    return: it appends the imported records whose id the store lacks. *)
Lemma handleImport_trees imported st :
  trees (handleImport imported st)
  = trees st ++ filter (λ t, Tree.id t ∉ ids (trees st)) imported.
Proof.
  unfold handleImport. destruct imported as [|t imported]; simpl.
  - symmetry. apply app_nil_r.
  - reflexivity.
Qed.

Lemma elem_of_ids (i : string) ts : i ∈ ids ts ↔ i ∈ map Tree.id ts.
Proof. unfold ids. apply elem_of_list_to_set. Qed.

(** With pairwise distinct imported ids, the appended records are as many
    as the identifiers that are new to the store. *)
Lemma appended_count store imported :
  NoDup (map Tree.id imported) →
  length (filter (λ t, Tree.id t ∉ ids store) imported)
  = size (genuinelyNew store imported).
Proof.
  unfold genuinelyNew. induction imported as [|t imported IH]; intros Hnd.
  - assert (Heq : ids [] ∖ ids store = ∅) by set_solver.
    rewrite Heq, size_empty. reflexivity.
  - simpl in Hnd. apply NoDup_cons in Hnd as [Hnotin Hnd].
    specialize (IH Hnd).
    assert (Hids : ids (t :: imported) = {[ Tree.id t ]} ∪ ids imported)
      by reflexivity.
    rewrite Hids.
    destruct (decide (Tree.id t ∉ ids store)) as [Hnew|Hold].
    + rewrite filter_cons_True by exact Hnew.
      assert (Heq : ({[Tree.id t]} ∪ ids imported) ∖ ids store
                    = {[Tree.id t]} ∪ (ids imported ∖ ids store))
        by set_solver.
      rewrite Heq, size_union, size_singleton.
      * cbn [length]. rewrite IH. reflexivity.
      * apply disjoint_singleton_l. rewrite elem_of_difference, elem_of_ids.
        tauto.
    + rewrite filter_cons_False by exact Hold.
      rewrite IH. f_equal. apply dec_stable in Hold. set_solver.
Qed.

End AppFacts.

(** C7. A map click in the split layout moves the street-level focus to the
    clicked coordinate and leaves the form and the pending coordinate as they
    were; a map click in the map-only layout makes the clicked coordinate the
    pending one and opens the form, and the street-level focus is unchanged. *)
Theorem handleMapClick_routes (loc : MapLocation) (st : App.State) :
  let st' := App.handleMapClick loc st in
  (App.viewMode st = App.mode_street →
     App.streetViewPos st' = loc
     ∧ App.isModalOpen st' = App.isModalOpen st
     ∧ App.tempLocation st' = App.tempLocation st)
  ∧ (App.viewMode st = App.mode_map →
     App.tempLocation st' = Some loc
     ∧ App.isModalOpen st' = true
     ∧ App.streetViewPos st' = App.streetViewPos st).
Proof.
  unfold App.handleMapClick.
  destruct (App.viewMode st); simpl; split; intros Hmode;
    try discriminate Hmode; repeat split; reflexivity.
Qed.

Lemma handleMapClick_routes_witness :
  App.streetViewPos (App.handleMapClick Sample.here Sample.split) = Sample.here
  ∧ App.isModalOpen (App.handleMapClick Sample.here Sample.split) = false
  ∧ App.tempLocation (App.handleMapClick Sample.here App.initial) = Some Sample.here
  ∧ App.isModalOpen (App.handleMapClick Sample.here App.initial) = true.
Proof.
  destruct (handleMapClick_routes Sample.here Sample.split) as [Hsplit _].
  destruct (handleMapClick_routes Sample.here App.initial) as [_ Hmap].
  destruct (Hsplit eq_refl) as (Hpos & Hopen & _).
  destruct (Hmap eq_refl) as (Htemp & Hopen' & _).
  repeat split; assumption.
Defined.

(** C8. Toggling the layout from map-only to split sets the street-level
    position to the last known device location when there is one and to the
    default coordinate (28.6328, 77.2197) otherwise, whatever the previous
    street-level position was. *)
Theorem toggleViewMode_centres (st : App.State) :
  App.viewMode st = App.mode_map →
  let st' := App.toggleViewMode st in
  App.viewMode st' = App.mode_street
  ∧ App.streetViewPos st'
    = match App.userLocation st with
      | Some device => device
      | None => {| Loc.lat := 28.6328%Q; Loc.lng := 77.2197%Q |}
      end.
Proof.
  intros Hmode. unfold App.toggleViewMode. rewrite Hmode. simpl.
  split; [reflexivity|]. destruct (App.userLocation st); reflexivity.
Qed.

Lemma toggleViewMode_centres_witness :
  App.streetViewPos (App.toggleViewMode App.initial) = DEFAULT_CENTER
  ∧ App.streetViewPos
      (App.toggleViewMode (App.handle (App.Geolocated Sample.here) App.initial))
    = Sample.here.
Proof.
  split.
  - exact (proj2 (toggleViewMode_centres App.initial eq_refl)).
  - exact (proj2 (toggleViewMode_centres
                    (App.handle (App.Geolocated Sample.here) App.initial) eq_refl)).
Defined.

(** C10. An import of an empty list leaves the tree list and the stored
    snapshot as they were: the only change is the notification. *)
Theorem import_of_nothing (w : App.World) :
  let w' := App.step (App.Imported []) w in
  App.trees (App.ui w') = App.trees (App.ui w)
  ∧ App.disk w' = App.disk w
  ∧ App.ui w'
    = App.setNotification (Some "No valid records found in CSV.") (App.ui w).
Proof.
  unfold App.step, App.autoSave. simpl.
  unfold App.handleImport, App.showNotification. simpl.
  rewrite Nat.eqb_refl. repeat split; reflexivity.
Qed.

(** C2. The code at the failing input.  The store holds [oak] (t-1) and
    the imported list holds [maple] (t-2) twice.  One identifier is new to
    the store, yet two records are appended, and the store, whose
    identifiers were pairwise distinct, then holds t-2 twice: the filter
    compares each imported record with the identifiers stored before the
    import, not with the records imported along with it. *)
Lemma import_counts_occurrences :
  let store := App.trees Sample.pending in
  let imported := [Sample.maple; Sample.maple] in
  let store' := App.trees (App.handleImport imported Sample.pending) in
  store = [Sample.oak]
  ∧ store' = [Sample.oak; Sample.maple; Sample.maple]
  ∧ size (App.genuinelyNew store imported) = 1
  ∧ length store' = length store + 2
  ∧ NoDup (map Tree.id store)
  ∧ ¬ NoDup (map Tree.id store').
Proof.
  cbv zeta. split; [reflexivity|]. split; [reflexivity|].
  split; [vm_compute; reflexivity|]. split; [reflexivity|]. split.
  - apply (bool_decide_unpack _). vm_compute. exact I.
  - intros Hnd. apply (bool_decide_pack _) in Hnd. vm_compute in Hnd. exact Hnd.
Qed.

(** What the import does for every imported list: it appends the imported
    records whose identifier the store lacks, in their order and once per
    occurrence, and every stored record keeps its place.  When no identifier
    occurs twice in the imported list the store grows by the number of
    identifiers that are new to it. *)
Lemma handleImport_appends_new (imported : list TreeRecord) (st : App.State) :
  let store := App.trees st in
  let store' := App.trees (App.handleImport imported st) in
  store' = store ++ filter (λ t, Tree.id t ∉ map Tree.id store) imported
  ∧ (∀ i t, store !! i = Some t → store' !! i = Some t)
  ∧ (NoDup (map Tree.id imported) →
     length store' = length store + size (App.genuinelyNew store imported)).
Proof.
  intros store store'.
  assert (Hfilter : filter (λ t, Tree.id t ∉ App.ids store) imported
                    = filter (λ t, Tree.id t ∉ map Tree.id store) imported).
  { apply list_filter_iff. intros t. rewrite elem_of_ids. reflexivity. }
  assert (Hstore : store' = store ++ filter (λ t, Tree.id t ∉ App.ids store) imported)
    by apply handleImport_trees.
  split; [|split].
  - rewrite Hstore, Hfilter. reflexivity.
  - intros i t Hi. rewrite Hstore. apply lookup_app_l_Some. exact Hi.
  - intros Hnd. rewrite Hstore, length_app, appended_count by exact Hnd. reflexivity.
Qed.

(** C3, as stated, fails: the identifier is the value [crypto.randomUUID()]
    returns and nothing compares it with the store, whose identifiers come
    from earlier saves and from imported files.  Here the store holds a
    record whose identifier is a version-4 UUID and the generator returns
    that same UUID; the new record carries the identifier of the stored
    one. *)
Lemma save_may_repeat_identifier :
  Uuid.is_v4 (App.randomUUID Sample.platform_colliding) = true
  ∧ ∃ t old,
      App.trees (App.handleSaveTree Sample.platform_colliding Sample.form_data
                   Sample.pending_elm)
      = App.trees Sample.pending_elm ++ [t]
      ∧ old ∈ App.trees Sample.pending_elm
      ∧ Tree.id t = Tree.id old.
Proof.
  split; [reflexivity|].
  eexists; exists Sample.elm. split; [reflexivity|].
  split; [apply list_elem_of_here | reflexivity].
Qed.

(** C3, amended. A save with a pending coordinate appends, after all
    existing records, one record whose identifier is the value the
    platform's UUID generator returned, whatever the store holds; whose
    species and condition are the members of the fixed enumerations chosen
    in the form; whose latitude and longitude are those of the pending
    coordinate; whose date is the current date; and whose notes are the
    text of the form.  The identifiers of the store are pairwise distinct
    after the save exactly when they were before it and the generated value
    was not among them. *)
Theorem handleSaveTree_appends
    (env : App.Platform) (data : App.SaveData) (st : App.State) (loc : MapLocation) :
  App.tempLocation st = Some loc →
  ∃ t,
    App.trees (App.handleSaveTree env data st) = App.trees st ++ [t]
    ∧ Tree.id t = App.randomUUID env
    ∧ (NoDup (map Tree.id (App.trees (App.handleSaveTree env data st)))
       ↔ NoDup (map Tree.id (App.trees st))
         ∧ App.randomUUID env ∉ map Tree.id (App.trees st))
    ∧ Tree.species t = App.data_species data
    ∧ Tree.species t ∈ SPECIES_OPTIONS
    ∧ Tree.condition t = App.data_condition data
    ∧ Tree.condition t ∈ HEALTH_OPTIONS
    ∧ Tree.lat t = Loc.lat loc
    ∧ Tree.lng t = Loc.lng loc
    ∧ Tree.dateAdded t = App.toLocaleDateString env
    ∧ Tree.notes t = Some (App.data_notes data).
Proof.
  intros Hpending. unfold App.handleSaveTree. rewrite Hpending.
  eexists. split; [reflexivity|]. simpl.
  split; [reflexivity|]. split.
  { rewrite map_app. simpl. rewrite NoDup_app. split.
    - intros (Hnd & Hfresh & _). split; [exact Hnd|].
      intros Hin. apply (Hfresh _ Hin). apply list_elem_of_here.
    - intros (Hnd & Hfresh). split; [exact Hnd|]. split.
      + intros i Hin Hnew. apply list_elem_of_singleton in Hnew. subst i.
        exact (Hfresh Hin).
      + apply NoDup_singleton. }
  repeat split.
  - destruct (App.data_species data); unfold SPECIES_OPTIONS;
      repeat (first [apply list_elem_of_here | apply list_elem_of_further]).
  - destruct (App.data_condition data); unfold HEALTH_OPTIONS;
      repeat (first [apply list_elem_of_here | apply list_elem_of_further]).
Qed.

Lemma handleSaveTree_appends_witness :
  Uuid.is_v4 (App.randomUUID Sample.platform_v4) = true
  ∧ ∃ t,
      App.trees (App.handleSaveTree Sample.platform_v4 Sample.form_data
                   Sample.pending_elm)
      = [Sample.elm; t]
      ∧ Tree.id t = "9b1deb4d-3b7d-4bad-9bdd-2b0d7b3dcb6d"
      ∧ NoDup (map Tree.id
                 (App.trees (App.handleSaveTree Sample.platform_v4 Sample.form_data
                               Sample.pending_elm))).
Proof.
  split; [reflexivity|].
  destruct (handleSaveTree_appends Sample.platform_v4 Sample.form_data
              Sample.pending_elm Sample.here eq_refl)
    as (t & Htrees & Hid & Hdistinct & _).
  exists t. split; [exact Htrees|]. split; [exact Hid|].
  apply Hdistinct. split; apply (bool_decide_unpack _); vm_compute; exact I.
Defined.

(** C9. In every reachable state of the application: submitting the form
    while a coordinate is pending makes exactly one [onSave] call, with the
    selected species, condition and notes, and resets the selection to
    Unknown, Good and empty notes; while no coordinate is pending the form
    renders nothing and no action makes any call; and cancelling makes the
    single call [onClose], which carries no payload and clears the pending
    coordinate without touching the tree list. *)
Theorem annotation_form_contract (app : App.State) (st : AnnotationModal.State) :
  App.reachable app →
  let p := AnnotationModal.propsFrom app in
  (∀ loc, App.tempLocation app = Some loc →
     AnnotationModal.act p AnnotationModal.Submit st
     = ({| AnnotationModal.species := UNKNOWN;
           AnnotationModal.condition := GOOD;
           AnnotationModal.notes := "" |},
        [AnnotationModal.onSave
           {| App.data_species := AnnotationModal.species st;
              App.data_condition := AnnotationModal.condition st;
              App.data_notes := AnnotationModal.notes st |}]))
  ∧ (App.tempLocation app = None →
     AnnotationModal.render p st = None
     ∧ ∀ a, AnnotationModal.act p a st = (st, []))
  ∧ (∀ loc env, App.tempLocation app = Some loc →
     AnnotationModal.act p AnnotationModal.ClickClose st
     = (st, [AnnotationModal.onClose])
     ∧ App.tempLocation (AnnotationModal.deliver env AnnotationModal.onClose app) = None
     ∧ App.trees (AnnotationModal.deliver env AnnotationModal.onClose app)
       = App.trees app).
Proof.
  intros Hreach p.
  pose proof (modal_open_iff_pending app Hreach) as Hopen.
  unfold AnnotationModal.act, AnnotationModal.render. subst p. simpl.
  split; [|split].
  - intros loc Hloc. rewrite Hopen, Hloc. reflexivity.
  - intros Hnone. rewrite Hnone.
    destruct (App.isModalOpen app); split; reflexivity || (intros a; reflexivity).
  - intros loc env Hloc. rewrite Hopen, Hloc. repeat split; reflexivity.
Qed.

Lemma annotation_form_contract_witness :
  AnnotationModal.act (AnnotationModal.propsFrom Sample.pending)
    AnnotationModal.Submit
    {| AnnotationModal.species := PINE; AnnotationModal.condition := CRITICAL;
       AnnotationModal.notes := "leaning" |}
  = (AnnotationModal.initial, [AnnotationModal.onSave Sample.form_data])
  ∧ AnnotationModal.act (AnnotationModal.propsFrom App.initial)
      AnnotationModal.Submit AnnotationModal.initial
    = (AnnotationModal.initial, []).
Proof.
  assert (Hreach : App.reachable Sample.pending)
    by (do 2 apply App.reachable_handle; apply App.reachable_initial).
  split.
  - exact (proj1 (annotation_form_contract Sample.pending _ Hreach)
             Sample.here eq_refl).
  - exact (proj2 (proj1 (proj2 (annotation_form_contract App.initial
                                  AnnotationModal.initial App.reachable_initial))
                    eq_refl) AnnotationModal.Submit).
Defined.

(** ** The street-level view *)

Section StreetViewFacts.
Import SV.

Lemma last_replicate_succ {A} (x : A) n : last (replicate (S n) x) = Some x.
Proof. induction n as [|n IH]; [reflexivity | exact IH]. Qed.

Lemma default_last_cons {A} (d d' x : A) pre l :
  default d (last (x :: l)) = default d' (last (pre ++ x :: l)).
Proof.
  rewrite last_app.
  destruct (last (x :: l)) eqn:E; [reflexivity|].
  apply last_None in E. discriminate E.
Qed.

Lemma isMounted_never_cleaned r stage :
  cleanup_at r = None → isMounted r stage = true.
Proof. unfold isMounted. intros ->. reflexivity. Qed.

(** A viewer event leaves the log alone or adds [ready] to it. *)
Lemma onViewerEvent_log mounted ev st :
  let st' := onViewerEvent mounted ev st in
  viewerRef st' = viewerRef st
  ∧ ((statusLog st' = statusLog st ∧ status st' = status st
      ∧ (mounted = true → reports ev = false))
     ∨ (statusLog st' = statusLog st ++ [ready] ∧ status st' = ready)).
Proof.
  destruct ev as [[loc|]|], mounted; simpl; split; try reflexivity;
    first [ right; split; reflexivity
          | left; repeat split; try reflexivity; intros; discriminate ].
Qed.

(** The events delivered to a constructed viewer add some number of
    [ready] to the log, at least one when the run is never cleaned up and
    one of the events reports. *)
Lemma deliverEvents_log r evs : ∀ stage st,
  ∃ n,
    statusLog (deliverEvents r stage evs st) = statusLog st ++ replicate n ready
    ∧ status (deliverEvents r stage evs st)
      = match n with 0 => status st | S _ => ready end
    ∧ viewerRef (deliverEvents r stage evs st) = viewerRef st
    ∧ (cleanup_at r = None → (∃ ev, ev ∈ evs ∧ reports ev = true) → 0 < n).
Proof.
  induction evs as [|ev evs IH]; intros stage st; simpl.
  - exists 0. rewrite app_nil_r. repeat split.
    intros _ [ev [Hin _]]. inversion Hin.
  - destruct (IH (S stage) (onViewerEvent (isMounted r stage) ev st))
      as (n & Hlog & Hstatus & Href & Hlive).
    destruct (onViewerEvent_log (isMounted r stage) ev st)
      as (Href' & [(Hlog' & Hstatus' & Hquiet) | (Hlog' & Hstatus')]).
    + exists n. rewrite Hlog, Hstatus, Href, Hlog', Hstatus', Href'.
      repeat split. intros Hnever (ev' & Hin & Hrep).
      apply elem_of_cons in Hin as [-> | Hin].
      * rewrite Hquiet in Hrep; [discriminate|].
        apply isMounted_never_cleaned, Hnever.
      * apply Hlive; [exact Hnever | exists ev'; split; assumption].
    + exists (S n). rewrite Hlog, Hstatus, Href, Hlog', Hstatus', Href'.
      rewrite <- app_assoc. simpl. repeat split.
      * destruct n; reflexivity.
      * intros; lia.
Qed.

End StreetViewFacts.

Section StreetViewRun.
Import SV.

(** What [createViewer] adds to the log. *)
Lemma createViewer_log r stage imageId st :
  ∃ tr,
    statusLog (StreetView.createViewer r stage imageId st) = statusLog st ++ tr
    ∧ status (StreetView.createViewer r stage imageId st)
      = default (status st) (last tr)
    ∧ ((tr = [] ∧ (is_Some (viewerRef st) ∨ container r = false))
       ∨ (viewerRef st = None ∧ container r = true ∧ viewer_constructs r = true
          ∧ ∃ n, tr = loading_viewer :: replicate n ready
                 ∧ (undisturbed r → 0 < n))
       ∨ (viewerRef st = None ∧ container r = true ∧ viewer_constructs r = false
          ∧ tr = loading_viewer :: (if isMounted r stage then [error] else []))).
Proof.
  unfold StreetView.createViewer.
  destruct (viewerRef st) as [v|] eqn:Href.
  { exists []. rewrite app_nil_r. repeat split. left. split; [reflexivity|].
    left. eexists; reflexivity. }
  destruct (container r) eqn:Hcont.
  2:{ exists []. rewrite app_nil_r. repeat split. left. split; [reflexivity|].
      right. reflexivity. }
  destruct (viewer_constructs r) eqn:Hcons.
  - destruct (deliverEvents_log r (viewer_events r) 4
                (setViewerRef (Some {| SV.imageId := imageId |})
                   (setStatus loading_viewer st)))
      as (n & Hlog & Hstatus & _ & Hlive).
    exists (loading_viewer :: replicate n ready).
    rewrite Hlog, Hstatus. simpl. rewrite <- app_assoc. simpl.
    split; [reflexivity|]. split.
    + destruct n as [|n]; [reflexivity|].
      change (loading_viewer :: replicate (S n) ready)
        with ([loading_viewer] ++ replicate (S n) ready).
      rewrite last_app, last_replicate_succ. reflexivity.
    + right; left. repeat split. exists n. split; [reflexivity|].
      intros (Hnever & _ & Hev). apply Hlive; [exact Hnever|].
      apply Hev, Hcons.
  - destruct (isMounted r stage) eqn:Hm; simpl.
    + exists [loading_viewer; error]. rewrite <- app_assoc. simpl.
      repeat split. right; right. repeat split.
    + exists [loading_viewer]. repeat split. right; right. repeat split.
Qed.


(** What the lookup leaves behind: the status log grows by [searching]
    and, unless an image was found, by [error] or [no_coverage]. *)
Lemma findNearestImage_log f st :
  let '(imageId, st') := StreetView.findNearestImage f st in
  imageId = found_image f
  ∧ viewerRef st' = viewerRef st
  ∧ match imageId with
    | Some _ => statusLog st' = statusLog st ++ [searching] ∧ status st' = searching
    | None =>
        ∃ s, (s = error ∨ s = no_coverage)
             ∧ statusLog st' = statusLog st ++ [searching; s] ∧ status st' = s
    end.
Proof.
  unfold StreetView.findNearestImage, StreetView.lookupFailed, found_image.
  destruct f as [message | [|] code [message | [|] id]]; simpl;
    try destruct (truthy id); simpl;
    repeat split;
    try (exists error; rewrite <- app_assoc; repeat split; left; reflexivity);
    try (exists no_coverage; rewrite <- app_assoc; repeat split; right; reflexivity).
Qed.

Lemma statusTrace_of_log r st tr :
  statusLog (StreetView.loadScene r st) = statusLog st ++ tr →
  StreetView.statusTrace r st = tr.
Proof.
  intros Hlog. unfold StreetView.statusTrace, statusesSince.
  rewrite Hlog. apply drop_app_length.
Qed.

(** The traces of a run, case by case.  [rest] is what follows
    [searching] once the library is there. *)
Lemma loadScene_log r st :
  ∃ tr,
    statusLog (StreetView.loadScene r st) = statusLog st ++ tr
    ∧ status (StreetView.loadScene r st) = default (status st) (last tr)
    ∧ ((StreetView.libraryLoaded r = false
        ∧ tr = if isMounted r 1 then [error] else [])
       ∨ (StreetView.libraryLoaded r = true
          ∧ ∃ rest, tr = searching :: rest
            ∧ ((found_image (fetched r) = None
                ∧ (rest = [error] ∨ rest = [no_coverage]))
               ∨ (∃ imageId, found_image (fetched r) = Some imageId
                  ∧ ((isMounted r 2 = false ∧ rest = [])
                     ∨ (isMounted r 2 = true
                        ∧ ((∃ v more, viewerRef st = Some v
                                      ∧ move_resolves r = true
                                      ∧ rest = ready :: more
                                      ∧ (isMounted r 3 = true → more = []))
                           ∨ (isMounted r 3 = false ∧ rest = [])
                           ∨ (container r = false ∧ rest = [])
                           ∨ ((viewerRef st = None ∨ move_resolves r = false)
                              ∧ container r = true ∧ viewer_constructs r = true
                              ∧ ∃ n, rest = loading_viewer :: replicate n ready
                                     ∧ (undisturbed r → 0 < n))
                           ∨ ((viewerRef st = None ∨ move_resolves r = false)
                              ∧ container r = true ∧ viewer_constructs r = false
                              ∧ rest = [loading_viewer; error])))))))).
Proof.
  unfold StreetView.loadScene.
  destruct (StreetView.libraryLoaded r) eqn:Hlib; simpl.
  2:{ destruct (isMounted r 1); simpl.
      - exists [error]. repeat split. left. split; reflexivity.
      - exists []. rewrite app_nil_r. repeat split. left. split; reflexivity. }
  pose proof (findNearestImage_log (fetched r) st) as Hfind.
  destruct (StreetView.findNearestImage (fetched r) st) as [imageId st1].
  destruct Hfind as (Himage & Href & Hlog).
  destruct imageId as [imageId|].
  2:{ destruct Hlog as (s & Hs & Hlog & Hstatus).
      exists [searching; s].
      assert (Hst1 : (if negb (isMounted r 2) then st1 else st1) = st1)
        by (destruct (negb (isMounted r 2)); reflexivity).
      rewrite Hst1, Hlog, Hstatus. repeat split.
      right. split; [reflexivity|]. exists [s]. split; [reflexivity|].
      left. split; [symmetry; exact Himage|].
      destruct Hs as [-> | ->]; [left | right]; reflexivity. }
  destruct Hlog as (Hlog & Hstatus).
  destruct (isMounted r 2) eqn:Hm2; simpl.
  2:{ exists [searching]. rewrite Hlog, Hstatus. repeat split.
      right. split; [reflexivity|]. exists []. split; [reflexivity|].
      right. exists imageId. split; [symmetry; exact Himage|].
      left. split; reflexivity. }
  rewrite Href.
  destruct (viewerRef st) as [v|] eqn:Hv.
  - destruct (move_resolves r) eqn:Hmove.
    + (* the viewer moved *)
      destruct (isMounted r 3) eqn:Hm3.
      * exists [searching; ready].
        unfold StreetView.createViewer. simpl. rewrite Hlog.
        rewrite <- app_assoc. repeat split.
        right. split; [reflexivity|]. exists [ready]. split; [reflexivity|].
        right. exists imageId. split; [symmetry; exact Himage|].
        right. split; [reflexivity|]. left. exists v, [].
        repeat split; reflexivity.
      * destruct (createViewer_log r 3 imageId
                    (setStatus ready (setViewerRef None st1)))
          as (more & Hlog' & Hstatus' & _).
        exists (searching :: ready :: more).
        rewrite Hlog', Hstatus'. simpl. rewrite Hlog, <- !app_assoc. simpl.
        split; [reflexivity|]. split.
        { destruct more as [|s more]; [reflexivity|].
          exact (default_last_cons _ _ s [searching; ready] more). }
        right. split; [reflexivity|]. exists (ready :: more).
        split; [reflexivity|].
        right. exists imageId. split; [symmetry; exact Himage|].
        right. split; [reflexivity|]. left. exists v, more.
        repeat split; try reflexivity. intros; discriminate.
    + (* the move failed *)
      destruct (isMounted r 3) eqn:Hm3.
      2:{ exists [searching]. simpl. rewrite Hlog, Hstatus. repeat split.
          right. split; [reflexivity|]. exists []. split; [reflexivity|].
          right. exists imageId. split; [symmetry; exact Himage|].
          right. split; [reflexivity|]. right; left. split; reflexivity. }
      destruct (createViewer_log r 3 imageId (removeViewer v (warn st1)))
        as (more & Hlog' & Hstatus' & Hcases).
      exists (searching :: more).
      rewrite Hlog', Hstatus'. simpl. rewrite Hlog, <- !app_assoc. simpl.
      rewrite Hstatus.
      split; [reflexivity|]. split.
      { destruct more as [|s more]; [reflexivity|].
        exact (default_last_cons _ _ s [searching] more). }
      right. split; [reflexivity|]. exists more. split; [reflexivity|].
      right. exists imageId. split; [symmetry; exact Himage|].
      right. split; [reflexivity|]. right. right.
      destruct Hcases as [(-> & [Hsome | Hcont])
                         | [(_ & Hcont & Hcons & n & -> & Hn)
                           | (_ & Hcont & Hcons & ->)]].
      * destruct Hsome as [x Hx]. discriminate Hx.
      * left. split; [exact Hcont | reflexivity].
      * right; left. split; [right; reflexivity|].
        repeat split; try assumption. exists n.
        split; [reflexivity | exact Hn].
      * right; right. rewrite Hm3. split; [right; reflexivity|].
        repeat split; assumption.
  - (* no viewer yet *)
    destruct (createViewer_log r 2 imageId st1)
      as (more & Hlog' & Hstatus' & Hcases).
    exists (searching :: more).
    rewrite Hlog', Hstatus', Hlog, <- !app_assoc, Hstatus. simpl.
    split; [reflexivity|]. split.
    { destruct more as [|s more]; [reflexivity|].
      exact (default_last_cons _ _ s [searching] more). }
    right. split; [reflexivity|]. exists more. split; [reflexivity|].
    right. exists imageId. split; [symmetry; exact Himage|].
    right. split; [reflexivity|]. right. right.
    rewrite Href in Hcases.
    destruct Hcases as [(-> & [Hsome | Hcont])
                       | [(_ & Hcont & Hcons & n & -> & Hn)
                         | (_ & Hcont & Hcons & ->)]].
    + destruct Hsome as [x Hx]. discriminate Hx.
    + left. split; [exact Hcont | reflexivity].
    + right; left. split; [left; reflexivity|].
      repeat split; try assumption. exists n.
      split; [reflexivity | exact Hn].
    + right; right. rewrite Hm2. split; [left; reflexivity|].
      repeat split; assumption.
Qed.

(** A reply that arrives late never sets [ready] or [searching] and never
    touches the viewer: it changes nothing when it carries an image, and
    sets [error] or [no_coverage] otherwise. *)
Lemma lateReply_status f st :
  viewerRef (StreetViewRuns.lateReply f st) = viewerRef st
  ∧ match found_image f with
    | Some _ => StreetViewRuns.lateReply f st = st
    | None =>
        status (StreetViewRuns.lateReply f st)
        = (if lookup_failed f then error else no_coverage)
    end.
Proof.
  unfold StreetViewRuns.lateReply, StreetView.lookupFailed, found_image, lookup_failed.
  destruct f as [message | [|] code [message | [|] id]]; simpl;
    try destruct (truthy id); split; reflexivity.
Qed.

Lemma lateReplies_found late : ∀ st,
  Forall (λ f, is_Some (found_image f)) late →
  StreetViewRuns.lateReplies late st = st.
Proof.
  induction late as [|f late IH]; intros st Hall; [reflexivity|].
  inversion Hall as [|? ? [imageId Hf] Hrest]; subst.
  unfold StreetViewRuns.lateReplies. simpl.
  destruct (lateReply_status f st) as [_ Hsame]. rewrite Hf in Hsame.
  rewrite Hsame. apply IH, Hrest.
Qed.

(** The lookup is [setStatus('searching')] followed by what a late reply
    does. *)
Lemma findNearestImage_lateReply f st :
  (StreetView.findNearestImage f st).2
  = StreetViewRuns.lateReply f (setStatus searching st).
Proof.
  unfold StreetView.findNearestImage, StreetViewRuns.lateReply.
  destruct f as [message | [|] code [message | found id]]; try reflexivity.
  destruct (found && truthy id); reflexivity.
Qed.

End StreetViewRun.

(** C5, as stated, fails, in two ways.  While the viewer library does not
    load, the view is in [error], and a change of coordinate sets [error]
    again and nothing else; the view does not pass through [searching].  And
    the race of section 5 of the specification: a run has set [searching]
    and its request is pending when the coordinate changes again; the new
    run builds its viewer and reaches [ready]; then the reply to the old
    request arrives and reports that nothing is near.  The view goes from
    [ready] to [no_coverage], with the viewer in place. *)
Lemma coordinate_change_status_failures :
  SV.status Sample.library_missing = SV.error
  ∧ StreetView.statusTrace Sample.run_no_library
      (SV.cleanup Sample.library_missing) = [SV.error]
  ∧ SV.status
      (StreetView.positionChanged Sample.run_no_library Sample.library_missing)
    = SV.error
  ∧ (let waiting := SV.setStatus SV.searching (SV.cleanup Sample.viewing) in
     let shown := StreetView.positionChanged Sample.run_ok waiting in
     SV.status shown = SV.ready
     ∧ SV.status (StreetViewRuns.lateReply Sample.nothing_near shown)
       = SV.no_coverage
     ∧ SV.viewerRef (StreetViewRuns.lateReply Sample.nothing_near shown)
       = Some {| SV.imageId := "img-2" |}).
Proof. repeat split; vm_compute; reflexivity. Qed.
(** C5, amended. For every run of the effect that a change of coordinate
    starts: once the viewer library is available the first status set is
    [searching].  If moreover the run is not cleaned up, the container is
    mounted and a constructed viewer reports, then the statuses that follow
    are [loading_viewer], exactly when the run gets to construct a viewer,
    and then one and the same of [ready], [no_coverage] and [error], set once
    or, for [ready], once per report of the viewer; the view rests in that
    status, and stays in it when replies to superseded requests arrive that
    carry an image.  When the library is not available the run sets [error]
    only.  [ready] is set only when the lookup returned an image identifier
    and either the existing viewer moved to it or a viewer was constructed
    for it.  A run that is superseded before its lookup returns sets
    [searching] and then does what a late reply does: nothing when the reply
    carries an image, and otherwise it sets [error], when the lookup failed,
    or [no_coverage], when it found nothing, over whatever status the view is
    in; it never sets [ready] and never touches the viewer. *)
Theorem loadScene_status_sequence (r : SV.Run) (st : SV.State) :
  let tr := StreetView.statusTrace r st in
  let st' := StreetView.loadScene r st in
  (StreetView.libraryLoaded r = true → head tr = Some SV.searching)
  ∧ (StreetView.libraryLoaded r = true → SV.undisturbed r →
       ∃ final n,
         SV.terminal final = true
         ∧ SV.status st' = final
         ∧ tr = SV.searching
                :: (if StreetViewRuns.constructsViewer r st
                    then [SV.loading_viewer] else [])
                ++ replicate (S n) final
         ∧ (final = SV.ready ∨ n = 0)
         ∧ ∀ late, Forall (λ f, is_Some (SV.found_image f)) late →
             SV.status (StreetViewRuns.lateReplies late st') = final)
  ∧ (StreetView.libraryLoaded r = false →
       tr = if SV.isMounted r 1 then [SV.error] else [])
  ∧ (SV.ready ∈ tr →
       ∃ imageId,
         SV.found_image (SV.fetched r) = Some imageId
         ∧ ((∃ v, SV.viewerRef st = Some v ∧ SV.move_resolves r = true)
            ∨ (SV.container r = true ∧ SV.viewer_constructs r = true)))
  ∧ (StreetView.libraryLoaded r = true → SV.isMounted r 2 = false →
       st' = StreetViewRuns.lateReply (SV.fetched r) (SV.setStatus SV.searching st))
  ∧ (∀ f st0,
       SV.viewerRef (StreetViewRuns.lateReply f st0) = SV.viewerRef st0
       ∧ match SV.found_image f with
         | Some _ => StreetViewRuns.lateReply f st0 = st0
         | None =>
             SV.status (StreetViewRuns.lateReply f st0)
             = (if SV.lookup_failed f then SV.error else SV.no_coverage)
         end).
Proof.
  cbv zeta.
  split; [|split; [|split; [|split; [|split]]]]; cycle 4.
  { (* a superseded run *)
    intros Hlib Hm2. rewrite <- findNearestImage_lateReply.
    unfold StreetView.loadScene. rewrite Hlib. simpl.
    destruct (StreetView.findNearestImage (SV.fetched r) st) as [imageId st1].
    rewrite Hm2. reflexivity. }
  { exact lateReply_status. }
  all: destruct (loadScene_log r st) as (tr & Hlog & Hstatus & Hcases);
    rewrite (statusTrace_of_log r st tr Hlog);
    destruct Hcases as [(Hlib & ->) | (Hlib & rest & -> & Hrest)].
  - rewrite Hlib. intros; discriminate.
  - reflexivity.
  - rewrite Hlib. intros; discriminate.
  - (* the view comes to rest *)
    intros _ (Hnever & Hcont & Hrep).
    pose proof (isMounted_never_cleaned r 2 Hnever) as Hm2.
    pose proof (isMounted_never_cleaned r 3 Hnever) as Hm3.
    unfold StreetViewRuns.constructsViewer.
    destruct Hrest as [(Hnone & [-> | ->]) | (imageId & Hfound & Hrest)].
    + exists SV.error, 0. rewrite Hstatus, Hnone.
      repeat split; [right; reflexivity|].
      intros late Hlate. rewrite (lateReplies_found late _ Hlate). exact Hstatus.
    + exists SV.no_coverage, 0. rewrite Hstatus, Hnone.
      repeat split; [right; reflexivity|].
      intros late Hlate. rewrite (lateReplies_found late _ Hlate). exact Hstatus.
    + rewrite Hfound.
      destruct Hrest as [(Hm2' & _) | (_ & Hrest)]; [congruence|].
      destruct Hrest as [(v & more & Hv & Hmove & -> & Hmore)
                        | [(Hm3' & _)
                          | [(Hcont' & _)
                            | [(Hfresh & _ & Hcons & n & -> & Hn)
                              | (Hfresh & _ & _ & ->)]]]]; try congruence.
      * rewrite (Hmore Hm3) in *. exists SV.ready, 0.
        rewrite Hstatus, Hv, Hmove.
        repeat split; [left; reflexivity|].
        intros late Hlate. rewrite (lateReplies_found late _ Hlate). exact Hstatus.
      * assert (Hpos : 0 < n) by (apply Hn; repeat split; assumption).
        destruct n as [|n]; [lia|].
        assert (Hlast : default (SV.status st)
                          (last (SV.searching :: SV.loading_viewer
                                   :: replicate (S n) SV.ready)) = SV.ready).
        { change (SV.searching :: SV.loading_viewer :: replicate (S n) SV.ready)
            with ([SV.searching; SV.loading_viewer] ++ replicate (S n) SV.ready).
          rewrite last_app, last_replicate_succ. reflexivity. }
        exists SV.ready, n. rewrite Hstatus, Hlast.
        split; [reflexivity|]. split; [reflexivity|]. split.
        { destruct Hfresh as [-> | ->]; [reflexivity|].
          destruct (SV.viewerRef st); reflexivity. }
        split; [left; reflexivity|].
        intros late Hlate. rewrite (lateReplies_found late _ Hlate).
        rewrite Hstatus. exact Hlast.
      * exists SV.error, 0. rewrite Hstatus.
        split; [reflexivity|]. split; [reflexivity|]. split.
        { destruct Hfresh as [-> | ->]; [reflexivity|].
          destruct (SV.viewerRef st); reflexivity. }
        split; [right; reflexivity|].
        intros late Hlate. rewrite (lateReplies_found late _ Hlate). exact Hstatus.
  - reflexivity.
  - rewrite Hlib. intros; discriminate.
  - intros Hin. destruct (SV.isMounted r 1).
    + apply list_elem_of_singleton in Hin. discriminate Hin.
    + apply elem_of_nil in Hin. destruct Hin.
  - (* [ready] needs a found image and a viewer *)
    intros Hin. apply elem_of_cons in Hin as [Hin | Hin]; [discriminate Hin|].
    destruct Hrest as [(_ & [-> | ->]) | (imageId & Himage & Hrest)].
    + apply list_elem_of_singleton in Hin. discriminate Hin.
    + apply list_elem_of_singleton in Hin. discriminate Hin.
    + exists imageId. split; [exact Himage|].
      destruct Hrest as [(_ & ->) | (_ & Hrest)];
        [apply elem_of_nil in Hin; destruct Hin|].
      destruct Hrest as [(v & more & Hv & Hmove & _)
                        | [(_ & ->)
                          | [(_ & ->)
                            | [(_ & Hcont & Hcons & _)
                              | (_ & _ & _ & ->)]]]].
      * left. exists v. split; assumption.
      * apply elem_of_nil in Hin. destruct Hin.
      * apply elem_of_nil in Hin. destruct Hin.
      * right. split; assumption.
      * apply elem_of_cons in Hin as [Hin | Hin]; [discriminate Hin|].
        apply list_elem_of_singleton in Hin. discriminate Hin.
Qed.

Lemma loadScene_status_sequence_witness :
  ∃ final n,
    SV.terminal final = true
    ∧ SV.status (StreetView.loadScene Sample.run_ok (SV.cleanup Sample.viewing)) = final
    ∧ StreetView.statusTrace Sample.run_ok (SV.cleanup Sample.viewing)
      = SV.searching :: [SV.loading_viewer] ++ replicate (S n) final.
Proof.
  pose proof (loadScene_status_sequence Sample.run_ok (SV.cleanup Sample.viewing))
    as (_ & Hrest & _).
  destruct Hrest as (final & n & Hterminal & Hstatus & Htrace & _).
  - reflexivity.
  - repeat split. intros _. exists SV.load_event.
    split; [apply list_elem_of_here | reflexivity].
  - exists final, n. repeat split; assumption.
Defined.

Section Relocation.
Import SV.

(** Viewer events touch neither the warnings, the removed viewers nor the
    error message. *)
Lemma deliverEvents_frame r evs : ∀ stage st,
  warnings (deliverEvents r stage evs st) = warnings st
  ∧ removed (deliverEvents r stage evs st) = removed st
  ∧ errorMsg (deliverEvents r stage evs st) = errorMsg st.
Proof.
  induction evs as [|ev evs IH]; intros stage st; simpl; [repeat split|].
  destruct (IH (S stage) (onViewerEvent (isMounted r stage) ev st))
    as (-> & -> & ->).
  destruct ev as [[loc|]|], (isMounted r stage); repeat split.
Qed.



End Relocation.




(** ** The tabular codec *)

Section CsvFacts.
Import Csv.
Context `{NumberText} `{Sentinels}.





Lemma encode_field_plain s : any special s = false → encode_field s = s.
Proof. unfold encode_field. intros ->. reflexivity. Qed.














End CsvFacts.

Section RatioFacts.
Import Csv.





End RatioFacts.

Section CsvClaims.
Import Csv.
Context `{NumberText} `{Sentinels}.

Lemma is_blank_parse_row fields : is_blank fields = true → parse_row fields = None.
Proof.
  destruct fields as [|[|c f] [|g fields]]; simpl; intros Hb;
    first [discriminate Hb | reflexivity].
Qed.

(** The decoding loop keeps what it had and adds the rows that parse. *)
Lemma collect_omap rs : ∀ acc, collect rs acc = acc ++ omap parse_row rs.
Proof.
  induction rs as [|r rs IH]; intros acc; simpl.
  - rewrite app_nil_r. reflexivity.
  - destruct (is_blank r) eqn:Hb.
    + rewrite (is_blank_parse_row r Hb). apply IH.
    + destruct (parse_row r) as [t|]; [|apply IH].
      rewrite IH, <- app_assoc. reflexivity.
Qed.

(** The rows that do not parse are the malformed ones. *)
Lemma parse_row_None fields : parse_row fields = None ↔ malformed fields.
Proof.
  unfold malformed.
  destruct fields as [|i [|la [|ln [|sp [|co [|d [|n [|x fields]]]]]]]];
    simpl; try (split; [intros _; left; discriminate | reflexivity]).
  destruct (parse_num la) as [a|] eqn:Hla, (parse_num ln) as [b|] eqn:Hln; split;
    try discriminate; try reflexivity.
  - intros [Hlen | [(la' & [= <-] & Hnone) | (ln' & [= <-] & Hnone)]];
      [destruct Hlen; reflexivity | congruence | congruence].
  - intros _. right; right. exists ln. split; [reflexivity | exact Hln].
  - intros _. right; left. exists la. split; [reflexivity | exact Hla].
  - intros _. right; left. exists la. split; [reflexivity | exact Hla].
Qed.

Lemma find_none {A} (f : A → bool) (l : list A) :
  (∀ x, f x = false) → find f l = None.
Proof.
  intros Hf. induction l as [|x l IH]; [reflexivity|].
  simpl. rewrite (Hf x). exact IH.
Qed.

Lemma species_of_string_unknown s :
  (∀ x, TreeSpecies_value x ≠ s) → species_of_string s = species_sentinel.
Proof.
  intros Hno. unfold species_of_string. rewrite find_none; [reflexivity|].
  intros x. apply String.eqb_neq, Hno.
Qed.

Lemma condition_of_string_unknown s :
  (∀ x, TreeHealth_value x ≠ s) → condition_of_string s = condition_sentinel.
Proof.
  intros Hno. unfold condition_of_string. rewrite find_none; [reflexivity|].
  intros x. apply String.eqb_neq, Hno.
Qed.

(** C4. Decoding returns, in order, the records of exactly the rows after
    the header that parse; the rows that do not parse are those with a wrong
    number of fields or a coordinate that is not a number, and dropping one
    leaves the records of the rows before and after it in place; a row with
    seven fields and two numeric coordinates always yields a record, with the
    sentinel as species or condition when the string is not a member of the
    enumeration. *)
Theorem parseCSV_skips_malformed_rows (text : string) :
  parseCSV text = omap parse_row (data_rows text)
  ∧ (∀ fields, parse_row fields = None ↔ malformed fields)
  ∧ (∀ before row after,
       data_rows text = before ++ row :: after → malformed row →
       parseCSV text = omap parse_row before ++ omap parse_row after)
  ∧ (∀ i la ln sp co d n a b,
       parse_num la = Some a → parse_num ln = Some b →
       ∃ t, parse_row [i; la; ln; sp; co; d; n] = Some t
            ∧ Tree.id t = i ∧ Tree.lat t = a ∧ Tree.lng t = b
            ∧ ((∀ x, TreeSpecies_value x ≠ sp) → Tree.species t = species_sentinel)
            ∧ ((∀ x, TreeHealth_value x ≠ co) → Tree.condition t = condition_sentinel)).
Proof.
  assert (Hdecode : parseCSV text = omap parse_row (data_rows text))
    by (unfold parseCSV; apply collect_omap).
  split; [exact Hdecode|]. split; [exact parse_row_None|]. split.
  - intros before row after Hrows Hbad.
    rewrite Hdecode, Hrows, omap_app. simpl.
    apply parse_row_None in Hbad. rewrite Hbad. reflexivity.
  - intros i la ln sp co d n a b Hla Hln. simpl. rewrite Hla, Hln.
    eexists. split; [reflexivity|]. simpl. repeat split.
    + apply species_of_string_unknown.
    + apply condition_of_string_unknown.
Qed.





End CsvClaims.

Section CsvOnSamples.
Import Fixed4.

Lemma parseCSV_skips_malformed_rows_witness :
  Csv.parseCSV Sample.survey_text = [Sample.oak; Sample.baobab].
Proof.
  destruct (@parseCSV_skips_malformed_rows
              Fixed4.number_text Fixed4.sentinels Sample.survey_text)
    as (Hdecode & _).
  rewrite Hdecode. vm_compute. reflexivity.
Defined.



(** The codec on texts outside the plain ones: carriage returns before the
    line feeds are dropped, and a field with a comma, quotes and a line feed
    is quoted and read back. *)
Example parseCSV_survey_text_crlf :
  Csv.parseCSV Sample.survey_text_crlf = [Sample.oak; Sample.baobab].
Proof. vm_compute. reflexivity. Qed.

Example parseCSV_generateCSV_quoted_notes :
  Csv.parseCSV (Csv.generateCSV [Sample.birch; Sample.oak])
  = [Sample.birch; Sample.oak].
Proof. vm_compute. reflexivity. Qed.

End CsvOnSamples.

(** ** More on the orchestrator *)

Section AppInvariants.
Import App.

(** An event bumps the version of the list or leaves the list alone, and
    only the mount effect does anything but append. *)
Lemma handle_trees ev st :
  (treesVersion (handle ev st) = treesVersion st ∧ trees (handle ev st) = trees st)
  ∨ (treesVersion (handle ev st) = S (treesVersion st)
     ∧ (AppRun.replacesList ev = false →
        ∃ more, trees (handle ev st) = trees st ++ more)).
Proof.
  destruct ev; simpl; try (left; split; reflexivity).
  - right. split; [reflexivity | discriminate].
  - unfold handleMapClick. destruct (viewMode st); left; split; reflexivity.
  - unfold handleSaveTree. destruct (tempLocation st).
    + right. split; [reflexivity|]. intros _. eexists. reflexivity.
    + left. split; reflexivity.
  - unfold handleImport. destruct (length importedTrees =? 0).
    + left. split; reflexivity.
    + right. split; [reflexivity|]. intros _. eexists. reflexivity.
  - unfold toggleViewMode. destruct (viewMode st); left; split; reflexivity.
Qed.

(** Nothing is appended when every imported identifier is stored. *)
Lemma handleImport_known imported st :
  (∀ t, t ∈ imported → Tree.id t ∈ map Tree.id (trees st)) →
  trees (handleImport imported st) = trees st.
Proof.
  intros Hknown. rewrite handleImport_trees.
  assert (Hnone : filter (λ t, Tree.id t ∉ ids (trees st)) imported = []).
  { apply elem_of_nil_inv. intros t [Hnew Hin]%list_elem_of_filter.
    apply Hnew, elem_of_ids, Hknown, Hin. }
  rewrite Hnone. apply app_nil_r.
Qed.

End AppInvariants.

(** X1. In every state the application can reach, the annotation form is
    open exactly when a coordinate is pending. *)
Theorem modal_open_exactly_while_pending (st : App.State) :
  App.reachable st →
  (App.isModalOpen st = true ↔ ∃ loc, App.tempLocation st = Some loc).
Proof.
  intros Hreach. rewrite (modal_open_iff_pending st Hreach).
  destruct (App.tempLocation st) as [loc|]; simpl; split.
  - intros _. exists loc. reflexivity.
  - reflexivity.
  - discriminate.
  - intros [loc Hloc]. discriminate Hloc.
Qed.

Lemma modal_open_exactly_while_pending_witness :
  App.isModalOpen Sample.pending = true
  ↔ ∃ loc, App.tempLocation Sample.pending = Some loc.
Proof.
  apply modal_open_exactly_while_pending.
  do 2 apply App.reachable_handle. apply App.reachable_initial.
Defined.

(** X2. Once the application is mounted, after every event the stored
    snapshot is the list of records the application holds. *)
Theorem storage_mirrors_list (w : App.World) :
  AppRun.running w → App.disk w = Some (App.trees (App.ui w)).
Proof.
  induction 1 as [loaded d | ev w Hrun IH].
  - reflexivity.
  - unfold App.step, App.autoSave. simpl.
    destruct (handle_trees ev (App.ui w)) as [[Hv Ht] | [Hv _]].
    + rewrite Hv, Nat.eqb_refl, Ht. exact IH.
    + rewrite Hv. destruct (Nat.eqb_spec (App.treesVersion (App.ui w))
                              (S (App.treesVersion (App.ui w)))) as [Heq|_].
      * lia.
      * reflexivity.
Qed.

Lemma storage_mirrors_list_witness :
  App.disk (App.step (App.Imported [Sample.maple])
              (AppRun.mount [Sample.oak] None))
  = Some [Sample.oak; Sample.maple].
Proof.
  rewrite (storage_mirrors_list
             (App.step (App.Imported [Sample.maple])
                (AppRun.mount [Sample.oak] None))).
  - vm_compute. reflexivity.
  - apply AppRun.running_step, AppRun.running_mount.
Defined.

(** X3. No event other than the mount effect removes, reorders or changes a
    record: after any sequence of such events the old list is a prefix of
    the new one. *)
Theorem trees_only_grow (evs : list App.Event) (st : App.State) :
  Forall (λ ev, AppRun.replacesList ev = false) evs →
  App.trees st `prefix_of` App.trees (AppRun.handleAll evs st).
Proof.
  unfold AppRun.handleAll. revert st.
  induction evs as [|ev evs IH]; intros st Hevs; simpl.
  - reflexivity.
  - apply Forall_cons in Hevs as [Hev Hevs].
    transitivity (App.trees (App.handle ev st)); [|apply IH, Hevs].
    destruct (handle_trees ev st) as [[_ Ht] | [_ Ht]].
    + rewrite Ht. reflexivity.
    + destruct (Ht Hev) as [more ->]. apply prefix_app_r. reflexivity.
Qed.

Lemma trees_only_grow_witness :
  App.trees Sample.pending
  `prefix_of`
  App.trees
    (AppRun.handleAll
       [App.ModalSaved Sample.platform Sample.form_data;
        App.ViewToggled;
        App.Imported [Sample.maple]]
       Sample.pending).
Proof.
  apply trees_only_grow. repeat apply Forall_cons_2; try apply Forall_nil_2;
    reflexivity.
Defined.

(** X4. An import keeps the identifiers of the store pairwise distinct when
    they were and the identifiers of the imported list are pairwise
    distinct. *)
Theorem handleImport_keeps_ids_distinct (imported : list TreeRecord) (st : App.State) :
  NoDup (map Tree.id (App.trees st)) →
  NoDup (map Tree.id imported) →
  NoDup (map Tree.id (App.trees (App.handleImport imported st))).
Proof.
  intros Hstore Himported. rewrite handleImport_trees, map_app.
  apply NoDup_app. split; [exact Hstore|]. split.
  - intros i Hi [t [-> [Hnew _]%list_elem_of_filter]]%list_elem_of_fmap.
    apply Hnew, elem_of_ids, Hi.
  - apply (sublist_NoDup _ (map Tree.id imported)); [exact Himported|].
    apply (fmap_sublist Tree.id), sublist_filter.
Qed.

Lemma handleImport_keeps_ids_distinct_witness :
  NoDup (map Tree.id
           (App.trees (App.handleImport [Sample.oak; Sample.maple] Sample.pending))).
Proof.
  apply handleImport_keeps_ids_distinct;
    apply (bool_decide_unpack _); vm_compute; exact I.
Defined.

(** X5. Importing the same list a second time adds nothing. *)
Theorem handleImport_twice (imported : list TreeRecord) (st : App.State) :
  App.trees (App.handleImport imported (App.handleImport imported st))
  = App.trees (App.handleImport imported st).
Proof.
  apply handleImport_known. intros t Ht.
  rewrite handleImport_trees, map_app, elem_of_app.
  destruct (decide (Tree.id t ∈ App.ids (App.trees st))) as [Hold | Hnew].
  - left. apply elem_of_ids, Hold.
  - right. apply list_elem_of_fmap_2, list_elem_of_filter. split; assumption.
Qed.

(** X6. The notification of an import counts the records of the file, not
    the records added: a non-empty list all of whose identifiers are stored
    leaves the list as it was, is reported with its full length, and makes
    the list a new array, so that the snapshot is written again. *)
Theorem handleImport_reports_file_size (imported : list TreeRecord) (st : App.State) :
  imported ≠ [] →
  (∀ t, t ∈ imported → Tree.id t ∈ map Tree.id (App.trees st)) →
  let st' := App.handleImport imported st in
  App.trees st' = App.trees st
  ∧ App.notification st'
    = Some ("Imported " +:+ nat_to_string (length imported) +:+ " trees.")
  ∧ App.treesVersion st' = S (App.treesVersion st).
Proof.
  intros Hne Hknown. split; [apply handleImport_known, Hknown|].
  unfold App.handleImport. destruct imported as [|t imported]; [congruence|].
  split; reflexivity.
Qed.

Lemma handleImport_reports_file_size_witness :
  App.trees (App.handleImport [Sample.oak] Sample.pending) = App.trees Sample.pending
  ∧ App.notification (App.handleImport [Sample.oak] Sample.pending)
    = Some "Imported 1 trees.".
Proof.
  destruct (handleImport_reports_file_size [Sample.oak] Sample.pending)
    as (Htrees & Hnote & _).
  - discriminate.
  - intros t Ht. apply list_elem_of_singleton in Ht as ->.
    apply list_elem_of_here.
  - split; [exact Htrees | exact Hnote].
Defined.

(** X7. A save closes the form, so a second save, whatever it carries,
    changes nothing: one pending coordinate gives at most one record. *)
Theorem handleSaveTree_once
    (env env' : App.Platform) (data data' : App.SaveData) (st : App.State) :
  App.handleSaveTree env' data' (App.handleSaveTree env data st)
  = App.handleSaveTree env data st.
Proof.
  unfold App.handleSaveTree at 2 3.
  destruct (App.tempLocation st) as [loc|] eqn:Hloc.
  - reflexivity.
  - unfold App.handleSaveTree. rewrite Hloc. reflexivity.
Qed.

(** X8. Toggling the layout twice restores the layout mode but not the
    street-level position: it is then the device location, or the default
    coordinate when none is known, wherever the street-level view had been
    moved to. *)
Theorem toggleViewMode_twice (st : App.State) :
  let st' := App.toggleViewMode (App.toggleViewMode st) in
  App.viewMode st' = App.viewMode st
  ∧ App.streetViewPos st' = default DEFAULT_CENTER (App.userLocation st)
  ∧ App.trees st' = App.trees st
  ∧ App.tempLocation st' = App.tempLocation st.
Proof.
  unfold App.toggleViewMode.
  destruct (App.viewMode st) eqn:Hmode; simpl; rewrite ?Hmode; simpl;
    repeat split; reflexivity.
Qed.

(** ** The control panel and the map *)

Section PanelFacts.

Lemma beforeT_prefix (d rest : string) :
  (∀ c, c ∈ list_ascii_of_string d → c ≠ "T"%char) →
  MissionControl.beforeT (d +:+ String "T" rest) = d.
Proof.
  induction d as [|c d IH]; intros Hd; [reflexivity|].
  change (String c d +:+ String "T" rest) with (String c (d +:+ String "T" rest)).
  simpl. destruct (Ascii.eqb_spec c "T"%char) as [-> | _].
  - destruct (Hd "T"%char); [apply list_elem_of_here | reflexivity].
  - rewrite IH; [reflexivity|].
    intros c' Hc'. apply Hd. simpl. apply list_elem_of_further, Hc'.
Qed.

End PanelFacts.

(** X9. Importing the file that an export of the current list produced adds
    no record, whenever the codec reads its own output of that list back
    and that output is not empty. *)
Theorem reimport_of_export
    (generateCSV : list TreeRecord → string) (parseCSV : string → list TreeRecord)
    (iso : string) (app : App.State) :
  parseCSV (generateCSV (App.trees app)) = App.trees app →
  SV.truthy (generateCSV (App.trees app)) = true →
  let file :=
    MissionControl.content
      (MissionControl.handleDownload generateCSV iso (App.trees app)) in
  App.trees (MissionControl.upload parseCSV (Some file) app) = App.trees app.
Proof.
  intros Hround Hfull. simpl.
  unfold MissionControl.upload, MissionControl.handleFileUpload.
  rewrite Hfull, Hround. apply handleImport_known.
  intros t Ht. apply (list_elem_of_fmap_2 Tree.id), Ht.
Qed.

Lemma reimport_of_export_witness :
  App.trees
    (MissionControl.upload (@Csv.parseCSV Fixed4.number_text Fixed4.sentinels)
       (Some (MissionControl.content
                (MissionControl.handleDownload (@Csv.generateCSV Fixed4.number_text)
                   "2026-11-01T09:30:00.000Z" (App.trees Sample.pending))))
       Sample.pending)
  = [Sample.oak].
Proof.
  apply (reimport_of_export (@Csv.generateCSV Fixed4.number_text)
           (@Csv.parseCSV Fixed4.number_text Fixed4.sentinels)
           "2026-11-01T09:30:00.000Z" Sample.pending);
    vm_compute; reflexivity.
Defined.

(** X10. The exported file is named after the date part of the ISO
    timestamp, the text before its first ['T'], holds the encoding of the
    list, and is offered with the MIME type [text/csv]. *)
Theorem download_named_by_date
    (generateCSV : list TreeRecord → string)
    (date rest : string) (trees : list TreeRecord) :
  (∀ c, c ∈ list_ascii_of_string date → c ≠ "T"%char) →
  let d := MissionControl.handleDownload generateCSV
             (date +:+ String "T" rest) trees in
  MissionControl.filename d = "canopy-count-" +:+ date +:+ ".csv"
  ∧ MissionControl.content d = generateCSV trees
  ∧ MissionControl.mimeType d = "text/csv".
Proof.
  intros Hdate. unfold MissionControl.handleDownload. simpl.
  rewrite (beforeT_prefix date rest Hdate). repeat split.
Qed.

Lemma download_named_by_date_witness :
  let d := MissionControl.handleDownload (@Csv.generateCSV Fixed4.number_text)
             "2026-11-01T09:30:00.000Z" [Sample.oak] in
  MissionControl.filename d = "canopy-count-2026-11-01.csv"
  ∧ MissionControl.mimeType d = "text/csv".
Proof.
  destruct (download_named_by_date (@Csv.generateCSV Fixed4.number_text)
              "2026-11-01" "09:30:00.000Z" [Sample.oak])
    as (Hname & _ & Hmime).
  - intros c Hc.
    repeat (apply elem_of_cons in Hc as [-> | Hc]; [discriminate|]).
    apply elem_of_nil in Hc. destruct Hc.
  - split; [exact Hname | exact Hmime].
Defined.

(** X11. The map shows one marker per record, keyed by the record's
    identifier, in the order of the list; after a map click it marks the
    street-level position and flies to it exactly when the layout is split,
    and then the position is the clicked coordinate. *)
Theorem map_follows_street_focus (loc : MapLocation) (st : App.State) :
  ∃ view,
    TreeMap.render true (TreeMap.propsFrom (App.handleMapClick loc st)) = Some view
    ∧ map TreeMap.key (TreeMap.treeMarkers view) = map Tree.id (App.trees st)
    ∧ TreeMap.flyTo view = TreeMap.pegman view
    ∧ TreeMap.pegman view
      = match App.viewMode st with
        | App.mode_street => Some loc
        | App.mode_map => None
        end.
Proof.
  eexists. split; [reflexivity|]. simpl.
  unfold App.handleMapClick. destruct (App.viewMode st) eqn:Hmode; simpl;
    rewrite ?Hmode; repeat split; apply map_map.
Qed.

(** ** The annotation form over a sequence of edits *)

(** X12. While the form is open, edits make no call, and a submit that
    follows any sequence of edits makes one [onSave] call carrying the
    species and condition clicked last and the notes typed last, or the
    earlier value where the sequence has no such edit; the form is then back
    to its defaults. *)
Theorem submit_carries_last_edits
    (p : AnnotationModal.Props) (loc : MapLocation)
    (actions : list AnnotationModal.Action) (st : AnnotationModal.State) :
  AnnotationModal.isOpen p = true →
  AnnotationModal.location p = Some loc →
  Forall (λ a, AnnotationRun.editing a = true) actions →
  AnnotationRun.actAll p (actions ++ [AnnotationModal.Submit]) st
  = (AnnotationModal.initial,
     [AnnotationModal.onSave
        {| App.data_species :=
             AnnotationRun.chosenSpecies actions (AnnotationModal.species st);
           App.data_condition :=
             AnnotationRun.chosenCondition actions (AnnotationModal.condition st);
           App.data_notes :=
             AnnotationRun.typedNotes actions (AnnotationModal.notes st) |}]).
Proof.
  intros Hopen Hloc Hedits. revert st.
  induction actions as [|a actions IH]; intros st.
  - simpl. unfold AnnotationModal.act, AnnotationModal.render.
    rewrite Hopen, Hloc. reflexivity.
  - apply Forall_cons in Hedits as [Ha Hedits].
    change ((a :: actions) ++ [AnnotationModal.Submit])
      with (a :: (actions ++ [AnnotationModal.Submit])).
    cbn [AnnotationRun.actAll].
    unfold AnnotationModal.act at 1, AnnotationModal.render.
    rewrite Hopen, Hloc.
    destruct a; try discriminate Ha; rewrite (IH Hedits); reflexivity.
Qed.

Lemma submit_carries_last_edits_witness :
  AnnotationRun.actAll (AnnotationModal.propsFrom Sample.pending)
    [AnnotationModal.ClickSpecies OAK; AnnotationModal.EditNotes "lea";
     AnnotationModal.ClickCondition CRITICAL; AnnotationModal.ClickSpecies PINE;
     AnnotationModal.EditNotes "leaning"; AnnotationModal.Submit]
    AnnotationModal.initial
  = (AnnotationModal.initial, [AnnotationModal.onSave Sample.form_data]).
Proof.
  apply (submit_carries_last_edits (AnnotationModal.propsFrom Sample.pending)
           Sample.here
           [AnnotationModal.ClickSpecies OAK; AnnotationModal.EditNotes "lea";
            AnnotationModal.ClickCondition CRITICAL; AnnotationModal.ClickSpecies PINE;
            AnnotationModal.EditNotes "leaning"]
           AnnotationModal.initial); try reflexivity.
  repeat apply Forall_cons_2; try apply Forall_nil_2; reflexivity.
Defined.

(** ** More on the street-level view *)

Section StreetViewMore.
Import SV.

(** The polling loop stops at the first poll at which the library is
    there, and after [budget] polls at the latest. *)
Lemma waitForLibrary_spec present : ∀ budget attempts,
  let k := StreetView.waitForLibrary present attempts budget in
  attempts ≤ k ≤ attempts + budget
  ∧ (∀ j, attempts ≤ j < k → present j = false)
  ∧ (k < attempts + budget → present k = true).
Proof.
  induction budget as [|budget IH]; intros attempts; simpl.
  - repeat split; intros; lia.
  - destruct (present attempts) eqn:Hnow.
    + repeat split; try lia; intros; first [exact Hnow | lia].
    + destruct (IH (S attempts)) as (Hrange & Hnone & Hfound).
      repeat split; try lia.
      * intros j Hj. destruct (decide (j = attempts)) as [-> | Hne];
          [exact Hnow | apply Hnone; lia].
      * intros Hk. apply Hfound. lia.
Qed.

Lemma last_cons_match {A} (x : A) (xs : list A) (d : option A) :
  match last (x :: xs) with Some l => Some l | None => d end
  = match last xs with Some l => Some l | None => Some x end.
Proof.
  destruct xs as [|y ys]; [reflexivity|].
  change (last (x :: y :: ys)) with (last (y :: ys)).
  destruct (last (y :: ys)) eqn:E; [reflexivity|].
  apply last_None in E. discriminate E.
Qed.

(** The viewer events report their locations upward in order and leave the
    last one as the current image location. *)
Lemma deliverEvents_reported r evs : ∀ stage st,
  positionChanges (deliverEvents r stage evs st)
  = positionChanges st ++ StreetViewUI.reported r stage evs
  ∧ currentImageLoc (deliverEvents r stage evs st)
    = match last (StreetViewUI.reported r stage evs) with
      | Some loc => Some loc
      | None => currentImageLoc st
      end.
Proof.
  induction evs as [|ev evs IH]; intros stage st.
  - simpl. rewrite app_nil_r. split; reflexivity.
  - cbn [deliverEvents StreetViewUI.reported].
    destruct (IH (S stage) (onViewerEvent (isMounted r stage) ev st)) as [Hpos Hloc].
    rewrite Hpos, Hloc.
    destruct ev as [[loc|]|], (isMounted r stage);
      try (split; reflexivity).
    split.
    + simpl. rewrite <- app_assoc. reflexivity.
    + symmetry. apply last_cons_match.
Qed.

End StreetViewMore.

(** X13. The wait for the viewer library makes at most 50 polls and stops
    at the first one that finds the library; the run goes on to the lookup
    exactly when the library is there at one of the polls 0 to 50. *)
Theorem library_wait_is_bounded (r : SV.Run) :
  let polls := StreetView.waitForLibrary (SV.library_present r) 0 50 in
  polls ≤ 50
  ∧ (∀ j, j < polls → SV.library_present r j = false)
  ∧ (StreetView.libraryLoaded r = true
     ↔ ∃ k, k ≤ 50 ∧ SV.library_present r k = true).
Proof.
  intros polls.
  pose proof (waitForLibrary_spec (SV.library_present r) 50 0) as Hspec.
  cbv zeta in Hspec. fold polls in Hspec.
  destruct Hspec as (Hrange & Hnone & Hfound).
  split; [lia|]. split; [intros j Hj; apply Hnone; lia|].
  unfold StreetView.libraryLoaded. fold polls. split.
  - intros Hloaded. exists polls. split; [lia | exact Hloaded].
  - intros (k & Hk & Hpresent).
    destruct (decide (polls < 50)) as [Hlt | Hge]; [apply Hfound; lia|].
    assert (k = polls) as ->; [|exact Hpresent].
    destruct (decide (k < polls)) as [Hkp | Hkp]; [|lia].
    rewrite Hnone in Hpresent by lia. discriminate Hpresent.
Qed.

(** X16. A click on the annotation overlay makes an [onAnnotate] call only
    when the view is labeling, [ready] and knows the location of its image;
    the call carries that location and ends labeling, so that a further click
    makes no call.  While the image location is unknown a click does nothing
    and labeling stays on. *)
Theorem overlay_click_annotates_once (st : SV.State) :
  (∀ st' loc,
     StreetViewUI.clickOverlay st = (st', Some loc) →
     SV.isLabeling st = true ∧ SV.status st = SV.ready
     ∧ SV.currentImageLoc st = Some loc
     ∧ SV.isLabeling st' = false
     ∧ StreetViewUI.clickOverlay st' = (st', None))
  ∧ (SV.currentImageLoc st = None → StreetViewUI.clickOverlay st = (st, None)).
Proof.
  unfold StreetViewUI.clickOverlay, StreetViewUI.overlayShown, SV.handleOverlayClick.
  split.
  - intros st' loc.
    destruct (SV.isLabeling st) eqn:Hlab; simpl; [|discriminate].
    destruct (decide (SV.status st = SV.ready)) as [Hready | Hnot].
    + rewrite (bool_decide_eq_true_2 _ Hready).
      destruct (SV.currentImageLoc st) as [l|]; [|discriminate].
      intros [= <- <-]. repeat split; assumption.
    + rewrite (bool_decide_eq_false_2 _ Hnot). discriminate.
  - intros ->. destruct (SV.isLabeling st), (bool_decide (SV.status st = SV.ready));
      reflexivity.
Qed.

(** X17. Every location the viewer reports in an ['image'] event while the
    run is mounted is passed to [onPositionChange], in order, and the last
    of them is the location an annotation will carry. *)
Theorem viewer_reports_reach_the_map
    (r : SV.Run) (stage : nat) (evs : list SV.ViewerEvent) (st : SV.State) :
  let st' := SV.deliverEvents r stage evs st in
  SV.positionChanges st'
  = SV.positionChanges st ++ StreetViewUI.reported r stage evs
  ∧ (StreetViewUI.reported r stage evs ≠ [] →
     SV.currentImageLoc st' = last (SV.positionChanges st')).
Proof.
  destruct (deliverEvents_reported r evs stage st) as [Hpos Hloc].
  simpl. split; [exact Hpos|]. intros Hne. rewrite Hloc, Hpos, last_app.
  destruct (last (StreetViewUI.reported r stage evs)) eqn:Hlast; [reflexivity|].
  apply last_None in Hlast. contradiction.
Qed.

Section Rebuild.
Import SV.

(** The lookup touches neither the viewer nor the warnings. *)
Lemma findNearestImage_frame f st :
  let st1 := (StreetView.findNearestImage f st).2 in
  let st2 := (StreetViewEarly.findNearestImage f st).2 in
  viewerRef st1 = viewerRef st ∧ warnings st1 = warnings st
  ∧ removed st1 = removed st
  ∧ viewerRef st2 = viewerRef st ∧ warnings st2 = warnings st
  ∧ removed st2 = removed st
  ∧ (StreetView.findNearestImage f st).1 = found_image f
  ∧ (StreetViewEarly.findNearestImage f st).1 = found_image f.
Proof.
  unfold StreetView.findNearestImage, StreetViewEarly.findNearestImage,
    StreetView.lookupFailed, found_image.
  destruct f as [message | [|] code [message | [|] id]]; simpl;
    try destruct (truthy id); repeat split.
Qed.

(** A run that starts without a viewer warns about nothing, removes
    nothing, and ends with no viewer or with one constructed for the image
    that was found. *)
Lemma loadScene_without_viewer r st :
  viewerRef st = None →
  let st' := StreetView.loadScene r st in
  warnings st' = warnings st ∧ removed st' = removed st
  ∧ ∀ w, viewerRef st' = Some w →
      ∃ imageId, found_image (fetched r) = Some imageId
                 ∧ w = {| SV.imageId := imageId |}
                 ∧ container r = true ∧ viewer_constructs r = true.
Proof.
  intros Hnone. unfold StreetView.loadScene.
  destruct (StreetView.libraryLoaded r); simpl.
  2:{ destruct (isMounted r 1); simpl; repeat split;
        intros w Hw; congruence. }
  pose proof (findNearestImage_frame (fetched r) st)
    as (Href & Hwarn & Hrem & _ & _ & _ & Himage & _).
  destruct (StreetView.findNearestImage (fetched r) st) as [imageId st1].
  simpl in Href, Hwarn, Hrem, Himage.
  destruct (isMounted r 2); simpl;
    [|repeat split; try assumption; intros w Hw; congruence].
  destruct imageId as [imageId|];
    [|repeat split; try assumption; intros w Hw; congruence].
  rewrite Href, Hnone. unfold StreetView.createViewer. rewrite Href, Hnone.
  destruct (container r);
    [|repeat split; try assumption; intros w Hw; congruence].
  destruct (viewer_constructs r).
  - set (built := setViewerRef _ _).
    destruct (deliverEvents_frame r (viewer_events r) 4 built) as (-> & -> & _).
    destruct (deliverEvents_log r (viewer_events r) 4 built) as (n & _ & _ & -> & _).
    simpl. repeat split; try assumption.
    intros w [= <-]. exists imageId. repeat split. symmetry. exact Himage.
  - destruct (isMounted r 2); simpl; repeat split; try assumption;
      intros w Hw; congruence.
Qed.

Lemma early_loadScene_without_viewer r st :
  viewerRef st = None →
  let st' := StreetViewEarly.loadScene r st in
  warnings st' = warnings st ∧ removed st' = removed st
  ∧ ∀ w, viewerRef st' = Some w →
      ∃ imageId, found_image (fetched r) = Some imageId
                 ∧ w = {| SV.imageId := imageId |}
                 ∧ container r = true ∧ viewer_constructs r = true.
Proof.
  intros Hnone. unfold StreetViewEarly.loadScene.
  pose proof (findNearestImage_frame (fetched r) st)
    as (_ & _ & _ & Href & Hwarn & Hrem & _ & Himage).
  destruct (StreetViewEarly.findNearestImage (fetched r) st) as [imageId st1].
  simpl in Href, Hwarn, Hrem, Himage.
  destruct (isMounted r 2); simpl;
    [|repeat split; try assumption; intros w Hw; congruence].
  destruct imageId as [imageId|];
    [|repeat split; try assumption; intros w Hw; congruence].
  rewrite Href, Hnone.
  destruct (container r); simpl;
    [|repeat split; try assumption; intros w Hw; congruence].
  destruct (library_present r 0); simpl;
    [|repeat split; try assumption; intros w Hw; congruence].
  destruct (isMounted r 3); simpl;
    [|repeat split; try assumption; intros w Hw; congruence].
  destruct (viewer_constructs r).
  - set (built := setViewerRef _ _).
    destruct (deliverEvents_frame r (viewer_events r) 4 built) as (-> & -> & _).
    destruct (deliverEvents_log r (viewer_events r) 4 built) as (n & _ & _ & -> & _).
    simpl. repeat split; try assumption.
    intros w [= <-]. exists imageId. repeat split. symmetry. exact Himage.
  - simpl. repeat split; try assumption. intros w Hw; congruence.
Qed.

End Rebuild.

(** X18. In both copies of the view, a change of coordinate never moves
    the existing viewer: the cleanup removes it, no relocation warning is
    logged, and the run ends with no viewer or with a new one constructed
    for the image the lookup found. *)
Theorem coordinate_change_rebuilds (r : SV.Run) (st : SV.State) :
  let gone := match SV.viewerRef st with Some v => [v] | None => [] end in
  (let st' := StreetView.positionChanged r st in
   SV.warnings st' = SV.warnings st
   ∧ SV.removed st' = SV.removed st ++ gone
   ∧ ∀ w, SV.viewerRef st' = Some w →
       ∃ imageId, SV.found_image (SV.fetched r) = Some imageId
                  ∧ w = {| SV.imageId := imageId |}
                  ∧ SV.container r = true ∧ SV.viewer_constructs r = true)
  ∧ (let st' := StreetViewEarly.positionChanged r st in
     SV.warnings st' = SV.warnings st
     ∧ SV.removed st' = SV.removed st ++ gone
     ∧ ∀ w, SV.viewerRef st' = Some w →
         ∃ imageId, SV.found_image (SV.fetched r) = Some imageId
                    ∧ w = {| SV.imageId := imageId |}
                    ∧ SV.container r = true ∧ SV.viewer_constructs r = true).
Proof.
  assert (Hclean : SV.viewerRef (SV.cleanup st) = None
                   ∧ SV.warnings (SV.cleanup st) = SV.warnings st
                   ∧ SV.removed (SV.cleanup st)
                     = SV.removed st
                       ++ match SV.viewerRef st with Some v => [v] | None => [] end).
  { unfold SV.cleanup. destruct (SV.viewerRef st) as [v|] eqn:Hv; simpl.
    - repeat split.
    - rewrite app_nil_r. repeat split. exact Hv. }
  destruct Hclean as (Hnone & Hwarn & Hrem).
  unfold StreetView.positionChanged, StreetViewEarly.positionChanged.
  destruct (loadScene_without_viewer r (SV.cleanup st) Hnone) as (Hw1 & Hr1 & Hv1).
  destruct (early_loadScene_without_viewer r (SV.cleanup st) Hnone)
    as (Hw2 & Hr2 & Hv2).
  cbv zeta. rewrite Hw1, Hr1, Hw2, Hr2, Hwarn, Hrem.
  repeat split; assumption.
Qed.

Section ErrorMessages.
Import SV.

(** The message shown for a state in [error] that carries a message. *)
Lemma shownError_message st m :
  status st = error → errorMsg st = Some m → truthy m = true →
  StreetViewUI.shownError st = Some m.
Proof.
  unfold StreetViewUI.shownError. intros -> -> ->. reflexivity.
Qed.

Lemma lookupFailed_explained message st0 st :
  StreetViewUI.explained st0 (StreetView.lookupFailed message st).2.
Proof.
  left. unfold StreetView.lookupFailed. simpl. split; [reflexivity|].
  destruct (truthy message) eqn:Hm; eexists; split; reflexivity || exact Hm.
Qed.

Lemma not_error_in (tr : list Status) :
  Forall (λ s, s ≠ error) tr → error ∉ tr.
Proof. intros Hall Hin. rewrite Forall_forall in Hall. exact (Hall _ Hin eq_refl). Qed.

Lemma createViewer_explained r stage imageId st0 st tr :
  statusLog st = statusLog st0 ++ tr → error ∉ tr →
  StreetViewUI.explained st0 (StreetView.createViewer r stage imageId st).
Proof.
  intros Hlog Htr. unfold StreetView.createViewer.
  destruct (viewerRef st); [right; exists tr; split; assumption|].
  destruct (container r); [|right; exists tr; split; assumption].
  destruct (viewer_constructs r).
  - right.
    destruct (deliverEvents_log r (viewer_events r) 4
                (setViewerRef (Some {| SV.imageId := imageId |})
                   (setStatus loading_viewer st)))
      as (n & -> & _).
    simpl. rewrite Hlog, <- !app_assoc. eexists. split; [reflexivity|].
    rewrite !elem_of_app. intros [Hin | [Hin | Hin]].
    + exact (Htr Hin).
    + apply list_elem_of_singleton in Hin. discriminate Hin.
    + apply elem_of_replicate in Hin as [Hin _]. discriminate Hin.
  - destruct (isMounted r stage).
    + left. simpl. split; [reflexivity|]. eexists. split; reflexivity.
    + right. simpl. rewrite Hlog, <- app_assoc. eexists. split; [reflexivity|].
      rewrite elem_of_app. intros [Hin | Hin]; [exact (Htr Hin)|].
      apply list_elem_of_singleton in Hin. discriminate Hin.
Qed.

Lemma loadScene_explained r st : StreetViewUI.explained st (StreetView.loadScene r st).
Proof.
  unfold StreetView.loadScene.
  destruct (StreetView.libraryLoaded r); simpl.
  2:{ destruct (isMounted r 1).
      - left. simpl. split; [reflexivity|]. eexists. split; reflexivity.
      - right. exists []. rewrite app_nil_r. split; [reflexivity|].
        apply not_elem_of_nil. }
  assert (Hquiet : ∀ s, s ≠ error →
            StreetViewUI.explained st (setStatus s (setStatus searching st))).
  { intros s Hs. right. exists [searching; s]. simpl. rewrite <- app_assoc.
    split; [reflexivity|].
    apply not_error_in. repeat constructor; [discriminate | exact Hs]. }
  assert (Hsearch : statusLog (setStatus searching st) = statusLog st ++ [searching]
                    ∧ error ∉ [searching]).
  { split; [reflexivity|]. apply not_error_in. repeat constructor. discriminate. }
  destruct Hsearch as [Hlog Hno].
  assert (Hidle : StreetViewUI.explained st (setStatus searching st))
    by (right; exists [searching]; split; assumption).
  unfold StreetView.findNearestImage.
  destruct (fetched r) as [message | [|] code [message | found id]];
    try (destruct (isMounted r 2); apply lookupFailed_explained).
  destruct (found && truthy id).
  2:{ cbn [negb fst snd]. destruct (isMounted r 2); simpl;
        apply Hquiet; discriminate. }
  destruct (isMounted r 2); simpl; [|exact Hidle].
  destruct (viewerRef st) as [v|].
  - destruct (move_resolves r).
    + apply (createViewer_explained r 3 id st _ [searching; ready]).
      * destruct (isMounted r 3); simpl; rewrite <- app_assoc; reflexivity.
      * apply not_error_in. repeat constructor; discriminate.
    + destruct (isMounted r 3).
      * apply (createViewer_explained r 3 id st _ [searching]);
          [reflexivity | exact Hno].
      * right. exists [searching]. split; [reflexivity | exact Hno].
  - apply (createViewer_explained r 2 id st _ [searching]);
      [reflexivity | exact Hno].
Qed.

End ErrorMessages.

(** X14. Whenever a run of the current copy sets [error], the view ends in
    [error] with a non-empty message of its own, and that message, not the
    generic fallback, is what the error overlay shows. *)
Theorem loadScene_error_is_explained (r : SV.Run) (st : SV.State) :
  SV.error ∈ StreetView.statusTrace r st →
  ∃ m,
    SV.status (StreetView.loadScene r st) = SV.error
    ∧ SV.errorMsg (StreetView.loadScene r st) = Some m
    ∧ SV.truthy m = true
    ∧ StreetViewUI.shownError (StreetView.loadScene r st) = Some m.
Proof.
  intros Hin.
  destruct (loadScene_explained r st) as [(Hstatus & m & Hm & Htruthy) | (tr & Hlog & Htr)].
  - exists m. repeat split; try assumption.
    apply shownError_message; assumption.
  - rewrite (statusTrace_of_log r st tr Hlog) in Hin. destruct (Htr Hin).
Qed.

Lemma loadScene_error_is_explained_witness :
  ∃ m,
    SV.status (StreetView.loadScene Sample.run_no_library SV.initial) = SV.error
    ∧ SV.errorMsg (StreetView.loadScene Sample.run_no_library SV.initial) = Some m
    ∧ SV.truthy m = true
    ∧ StreetViewUI.shownError (StreetView.loadScene Sample.run_no_library SV.initial)
      = Some m.
Proof.
  apply loadScene_error_is_explained. vm_compute. apply list_elem_of_here.
Defined.

Section EarlyRun.
Import SV.

(** The traces of a run of the early copy, case by case; [rest] is what
    follows [searching]. *)
Lemma early_loadScene_log r st :
  ∃ rest,
    statusLog (StreetViewEarly.loadScene r st) = statusLog st ++ searching :: rest
    ∧ ((lookup_failed (fetched r) = true ∧ rest = [error])
       ∨ (lookup_failed (fetched r) = false ∧ found_image (fetched r) = None
          ∧ rest = [no_coverage])
       ∨ ∃ imageId, found_image (fetched r) = Some imageId
           ∧ lookup_failed (fetched r) = false
           ∧ (rest = []
              ∨ (rest = [ready] ∧ isMounted r 2 = true
                 ∧ ∃ v, viewerRef st = Some v ∧ move_resolves r = true)
              ∨ (isMounted r 2 = true ∧ viewerRef st = None
                 ∧ container r = true ∧ library_present r 0 = true
                 ∧ ((rest = [loading_viewer] ∧ isMounted r 3 = false)
                    ∨ (isMounted r 3 = true ∧ viewer_constructs r = true
                       ∧ ∃ n, rest = loading_viewer :: replicate n ready)
                    ∨ (isMounted r 3 = true ∧ viewer_constructs r = false
                       ∧ rest = [loading_viewer; error]))))).
Proof.
  unfold StreetViewEarly.loadScene, StreetViewEarly.findNearestImage,
    found_image, lookup_failed.
  assert (Hfail :
            statusLog (setErrorMsg
                         (Some "Failed to connect to Backend (Is python main.py running?)")
                         (setStatus error (setStatus searching st)))
            = statusLog st ++ [searching; error]).
  { simpl. rewrite <- app_assoc. reflexivity. }
  assert (Hnothing :
            statusLog (setStatus no_coverage (setStatus searching st))
            = statusLog st ++ [searching; no_coverage]).
  { simpl. rewrite <- app_assoc. reflexivity. }
  destruct (fetched r) as [message | [|] code [message | [|] id]];
    try (exists [error]; destruct (isMounted r 2); simpl;
         (split; [exact Hfail | left; split; reflexivity])).
  - (* found *)
    destruct (truthy id) eqn:Hid; simpl.
    2:{ exists [no_coverage]. destruct (isMounted r 2); simpl;
          (split; [exact Hnothing | right; left; repeat split]). }
    destruct (isMounted r 2) eqn:Hm2; simpl.
    2:{ exists []. split; [reflexivity|]. right; right. exists id.
        do 2 (split; [reflexivity|]). left; reflexivity. }
    destruct (viewerRef st) as [v|] eqn:Hv.
    + destruct (move_resolves r) eqn:Hmove; simpl.
      * exists [ready]. split.
        { destruct (isMounted r 3); simpl; rewrite <- app_assoc; reflexivity. }
        right; right. exists id. do 2 (split; [reflexivity|]). right; left.
        repeat split. exists v. split; reflexivity.
      * exists []. split.
        { destruct (isMounted r 3); reflexivity. }
        right; right. exists id. do 2 (split; [reflexivity|]). left; reflexivity.
    + destruct (container r) eqn:Hcont; simpl.
      2:{ exists []. split; [reflexivity|]. right; right. exists id.
          do 2 (split; [reflexivity|]). left; reflexivity. }
      destruct (library_present r 0) eqn:Hlib; simpl.
      2:{ exists []. split; [reflexivity|]. right; right. exists id.
          do 2 (split; [reflexivity|]). left; reflexivity. }
      destruct (isMounted r 3) eqn:Hm3; simpl.
      2:{ exists [loading_viewer]. rewrite <- app_assoc. split; [reflexivity|].
          right; right. exists id. do 2 (split; [reflexivity|]). right; right.
          repeat split. left. split; reflexivity. }
      destruct (viewer_constructs r) eqn:Hcons.
      * destruct (deliverEvents_log r (viewer_events r) 4
                    (setViewerRef (Some {| SV.imageId := id |})
                       (setStatus loading_viewer (setStatus searching st))))
          as (n & -> & _).
        exists (loading_viewer :: replicate n ready). simpl.
        rewrite <- !app_assoc. split; [reflexivity|].
        right; right. exists id. do 2 (split; [reflexivity|]). right; right.
        repeat split. right; left. repeat split. exists n. reflexivity.
      * exists [loading_viewer; error]. simpl. rewrite <- !app_assoc.
        split; [reflexivity|].
        right; right. exists id. do 2 (split; [reflexivity|]). right; right.
        repeat split. right; right. repeat split.
  - (* the body says not found *)
    exists [no_coverage]. destruct (isMounted r 2); simpl;
      (split; [exact Hnothing | right; left; repeat split]).
Qed.

Lemma early_statusTrace_of_log r st tr :
  statusLog (StreetViewEarly.loadScene r st) = statusLog st ++ tr →
  StreetViewEarly.statusTrace r st = tr.
Proof.
  intros Hlog. unfold StreetViewEarly.statusTrace, statusesSince.
  rewrite Hlog. apply drop_app_length.
Qed.

End EarlyRun.

(** X15. Every run of the early copy first sets [searching]; it sets
    [ready] only when the lookup returned an image identifier and either the
    existing viewer moved to it or, with the container and the library there
    and the run still mounted, a viewer was constructed; and it sets [error]
    only when the lookup failed or the construction of the viewer failed.  A
    lookup that succeeded and found nothing sets [no_coverage], never
    [error]. *)
Theorem early_status_sequence (r : SV.Run) (st : SV.State) :
  let tr := StreetViewEarly.statusTrace r st in
  head tr = Some SV.searching
  ∧ (SV.ready ∈ tr →
       ∃ imageId,
         SV.found_image (SV.fetched r) = Some imageId
         ∧ SV.isMounted r 2 = true
         ∧ ((∃ v, SV.viewerRef st = Some v ∧ SV.move_resolves r = true)
            ∨ (SV.viewerRef st = None ∧ SV.container r = true
               ∧ SV.library_present r 0 = true ∧ SV.isMounted r 3 = true
               ∧ SV.viewer_constructs r = true)))
  ∧ (SV.error ∈ tr →
       SV.lookup_failed (SV.fetched r) = true
       ∨ (is_Some (SV.found_image (SV.fetched r))
          ∧ SV.viewer_constructs r = false))
  ∧ (SV.lookup_failed (SV.fetched r) = false →
     SV.found_image (SV.fetched r) = None →
     tr = [SV.searching; SV.no_coverage]).
Proof.
  destruct (early_loadScene_log r st) as (rest & Hlog & Hcases).
  rewrite (early_statusTrace_of_log r st _ Hlog). simpl.
  split; [reflexivity|]. split; [|split].
  - intros Hin. apply elem_of_cons in Hin as [Hin | Hin]; [discriminate Hin|].
    destruct Hcases as [(_ & ->) | [(_ & _ & ->) | (imageId & Himage & _ & Hrest)]].
    + apply list_elem_of_singleton in Hin. discriminate Hin.
    + apply list_elem_of_singleton in Hin. discriminate Hin.
    + exists imageId. split; [exact Himage|].
      destruct Hrest as [-> | [(-> & Hm2 & v & Hv & Hmove)
                              | (Hm2 & Hv & Hcont & Hlib & Hrest)]].
      * apply elem_of_nil in Hin. destruct Hin.
      * split; [exact Hm2|]. left. exists v. split; assumption.
      * split; [exact Hm2|]. right.
        destruct Hrest as [(-> & _) | [(Hm3 & Hcons & _) | (_ & _ & ->)]].
        -- apply list_elem_of_singleton in Hin. discriminate Hin.
        -- repeat split; assumption.
        -- apply elem_of_cons in Hin as [Hin | Hin]; [discriminate Hin|].
           apply list_elem_of_singleton in Hin. discriminate Hin.
  - intros Hin. apply elem_of_cons in Hin as [Hin | Hin]; [discriminate Hin|].
    destruct Hcases as [(Hfailed & _)
                       | [(_ & _ & ->) | (imageId & Himage & _ & Hrest)]];
      [left; exact Hfailed | |].
    { apply list_elem_of_singleton in Hin. discriminate Hin. }
    right. split; [rewrite Himage; eexists; reflexivity|].
    destruct Hrest as [-> | [(-> & _) | (_ & _ & _ & _ & Hrest)]].
    + apply elem_of_nil in Hin. destruct Hin.
    + apply list_elem_of_singleton in Hin. discriminate Hin.
    + destruct Hrest as [(-> & _) | [(_ & _ & n & ->) | (_ & Hcons & _)]].
      * apply list_elem_of_singleton in Hin. discriminate Hin.
      * apply elem_of_cons in Hin as [Hin | Hin]; [discriminate Hin|].
        apply elem_of_replicate in Hin as [Hin _]. discriminate Hin.
      * exact Hcons.
  - intros Hok Hnone.
    destruct Hcases as [(Hfailed & _)
                       | [(_ & _ & ->) | (imageId & Himage & _)]];
      [congruence | reflexivity | congruence].
Qed.

(** X19. An upload with no file or with an empty file changes nothing, not
    even the notification; a non-empty file in which the codec finds no
    record changes nothing but the notification, which then reads that no
    valid records were found. *)
Theorem upload_of_nothing
    (parseCSV : string → list TreeRecord) (app : App.State) :
  MissionControl.upload parseCSV None app = app
  ∧ MissionControl.upload parseCSV (Some EmptyString) app = app
  ∧ (∀ text, text ≠ EmptyString → parseCSV text = [] →
       MissionControl.upload parseCSV (Some text) app
       = App.setNotification (Some "No valid records found in CSV.") app).
Proof.
  split; [reflexivity|]. split; [reflexivity|].
  intros text Htext Hnone.
  unfold MissionControl.upload, MissionControl.handleFileUpload.
  destruct text as [|c text]; [congruence|]. simpl. rewrite Hnone. reflexivity.
Qed.
